(** * A feedforward network trained by gradient descent (Class4/network.py)

    The development embeds [network.py] in Rocq: Python lists with their
    negative indices and exceptions, numpy's two-dimensional float64 arrays
    with broadcasting, and the [Network] class with its mutable attributes
    threaded through a small state-and-exception monad.  Scalars are the
    kernel's binary64 floats, the arithmetic numpy itself computes with. *)

From Stdlib Require Import Floats ZArith List Bool Lia PeanoNat.
Import ListNotations.

Local Open Scope float_scope.

(** ** Exceptions and fallible results *)

(** The exceptions the interpreter or numpy can raise in this program. *)
Inductive exn : Type :=
| ValueError          (* numpy: shapes not aligned, not broadcastable, empty argmax *)
| IndexError          (* list index out of range *)
| ZeroDivisionError.  (* float division by zero *)

Inductive result (A : Type) : Type :=
| Ok (a : A)
| Raise (e : exn).

Arguments Ok {A} a.
Arguments Raise {A} e.

Definition bind {A B : Type} (r : result A) (k : A -> result B) : result B :=
  match r with
  | Ok a => k a
  | Raise e => Raise e
  end.

Declare Scope result_scope.
Delimit Scope result_scope with result.
Notation "x <- e ;; k" := (bind e (fun x => k))
  (at level 61, e at next level, right associativity) : result_scope.
Notation "' p <- e ;; k" := (bind e (fun p => k))
  (at level 61, p pattern, e at next level, right associativity) : result_scope.
Local Open Scope result_scope.

(** A comprehension [[f(v) for v in l]] whose body may raise: elements are
    evaluated left to right and the first exception escapes. *)
Fixpoint mapM {A B : Type} (f : A -> result B) (l : list A) : result (list B) :=
  match l with
  | [] => Ok []
  | a :: l' => b <- f a ;; bs <- mapM f l' ;; Ok (b :: bs)
  end.

(** A [for] loop over [l] that threads the loop-carried variables [acc]. *)
Fixpoint foldM {A S : Type} (f : S -> A -> result S) (l : list A) (acc : S) : result S :=
  match l with
  | [] => Ok acc
  | a :: l' => acc' <- f acc a ;; foldM f l' acc'
  end.

(** ** Python lists *)

Module Py.

(** [l[i]] with Python's negative indices. *)
Definition index {A : Type} (l : list A) (i : Z) : result A :=
  let n := Z.of_nat (length l) in
  let k := if (i <? 0)%Z then (n + i)%Z else i in
  if ((0 <=? k) && (k <? n))%Z
  then match nth_error l (Z.to_nat k) with
       | Some a => Ok a
       | None => Raise IndexError
       end
  else Raise IndexError.

Fixpoint update {A : Type} (l : list A) (k : nat) (v : A) : list A :=
  match l, k with
  | [], _ => []
  | _ :: l', O => v :: l'
  | a :: l', S k' => a :: update l' k' v
  end.

(** [l[i] = v]; the list is returned since the model has no aliasing to keep. *)
Definition setitem {A : Type} (l : list A) (i : Z) (v : A) : result (list A) :=
  let n := Z.of_nat (length l) in
  let k := if (i <? 0)%Z then (n + i)%Z else i in
  if ((0 <=? k) && (k <? n))%Z
  then Ok (update l (Z.to_nat k) v)
  else Raise IndexError.

(** [zip] stops at the shorter list. *)
Definition zip {A B : Type} (l : list A) (l' : list B) : list (A * B) := combine l l'.

(** [range(a, b)]. *)
Definition range (a b : nat) : list Z := map Z.of_nat (seq a (b - a)).

(** [float(n)] for a non-negative int below 2^63 (every list length is). *)
Definition float_of_nat (n : nat) : float :=
  PrimFloat.of_uint63 (Uint63.of_Z (Z.of_nat n)).

(** True division [x / n] of a float by a non-negative int: the int is
    converted to a float, and the division raises exactly when it is zero. *)
Definition truediv (x : float) (n : nat) : result float :=
  if (n =? 0)%nat then Raise ZeroDivisionError else Ok (x / float_of_nat n).

End Py.

(** ** numpy arrays of two dimensions *)

Module np.

(** An array is read through its [shape] and [item]; [rows] is the storage. *)
Record ndarray : Type := mk_ndarray {
  nrows : nat;
  ncols : nat;
  rows : list (list float)
}.

Definition shape (A : ndarray) : nat * nat := (nrows A, ncols A).

Definition item (A : ndarray) (i j : nat) : float := nth j (nth i (rows A) []) 0.

Definition tabulate (r c : nat) (f : nat -> nat -> float) : ndarray :=
  mk_ndarray r c (map (fun i => map (f i) (seq 0 c)) (seq 0 r)).

(** [np.zeros(sh)]. *)
Definition zeros (sh : nat * nat) : ndarray :=
  tabulate (fst sh) (snd sh) (fun _ _ => 0).

(** A unary ufunc, or an operator between a scalar and an array. *)
Definition amap (f : float -> float) (A : ndarray) : ndarray :=
  tabulate (nrows A) (ncols A) (fun i j => f (item A i j)).

(** Broadcasting of one dimension: equal lengths, or one of them is 1. *)
Definition bdim (a b : nat) : option nat :=
  if (a =? b)%nat then Some a
  else if (a =? 1)%nat then Some b
  else if (b =? 1)%nat then Some a
  else None.

(** The entry a broadcast operand contributes at position (i, j). *)
Definition bitem (A : ndarray) (i j : nat) : float :=
  item A (if (nrows A =? 1)%nat then 0%nat else i) (if (ncols A =? 1)%nat then 0%nat else j).

(** A binary ufunc between two arrays. *)
Definition broadcast (f : float -> float -> float) (A B : ndarray) : result ndarray :=
  match bdim (nrows A) (nrows B), bdim (ncols A) (ncols B) with
  | Some r, Some c => Ok (tabulate r c (fun i j => f (bitem A i j) (bitem B i j)))
  | _, _ => Raise ValueError
  end.

Definition add : ndarray -> ndarray -> result ndarray := broadcast PrimFloat.add.
Definition sub : ndarray -> ndarray -> result ndarray := broadcast PrimFloat.sub.
Definition mul : ndarray -> ndarray -> result ndarray := broadcast PrimFloat.mul.

(** [A.transpose()]. *)
Definition transpose (A : ndarray) : ndarray :=
  tabulate (ncols A) (nrows A) (fun i j => item A j i).

(** One entry of a matrix product.  BLAS does not fix the order of the
    summation; it is taken left to right here, and no theorem below depends
    on that choice. *)
Definition inner (A B : ndarray) (i j : nat) : float :=
  fold_left (fun acc k => acc + item A i k * item B k j) (seq 0 (ncols A)) 0.

(** [np.dot(A, B)] on two-dimensional arrays. *)
Definition dot (A B : ndarray) : result ndarray :=
  if (ncols A =? nrows B)%nat
  then Ok (tabulate (nrows A) (ncols B) (inner A B))
  else Raise ValueError.

(** The entries in row-major order, as [argmax] without an axis reads them. *)
Definition ravel (A : ndarray) : list float :=
  concat (map (fun i => map (item A i) (seq 0 (ncols A))) (seq 0 (nrows A))).

(** numpy's argmax loop for floats: [mp] is the running maximum, [ind] its
    index and [i] the index of the head of [l].  An entry replaces the maximum
    when [not (v <= mp)], and a NaN ends the scan. *)
Fixpoint argmax_from (mp : float) (ind i : nat) (l : list float) : nat :=
  match l with
  | [] => ind
  | v :: l' =>
      if v <=? mp then argmax_from mp ind (S i) l'
      else if PrimFloat.is_nan v then i
      else argmax_from v i (S i) l'
  end.

Definition argmax_list (l : list float) : result nat :=
  match l with
  | [] => Raise ValueError
  | v :: l' => Ok (if PrimFloat.is_nan v then 0%nat else argmax_from v 0 1 l')
  end.

(** [np.argmax(A)]. *)
Definition argmax (A : ndarray) : result nat := argmax_list (ravel A).

(** [np.exp(A)]: the ufunc applies the platform's scalar [exp], which is
    not part of the repository and is a parameter of the model. *)
Definition exp (libm_exp : float -> float) (A : ndarray) : ndarray := amap libm_exp A.

(** [np.random.randn(r, c)]: the entries are the next [r * c] draws of the
    generator, in row-major order.  [gauss k] is the k-th draw of the global
    generator and the state is the number of draws made so far. *)
Definition randn (gauss : nat -> float) (r c : nat) (pos : nat) : ndarray * nat :=
  (tabulate r c (fun i j => gauss (pos + i * c + j)%nat), (pos + r * c)%nat).

End np.

Import np.

(** ** The Network object and the world around it *)

Record Network : Type := mk_Network {
  num_layers : nat;
  sizes : list nat;
  biases : list ndarray;
  weights : list ndarray
}.

(** What a method call can change: the attributes of [self] and the lines
    printed so far (the accuracy of each epoch, most recent last). *)
Record World : Type := mk_World {
  self : Network;
  stdout : list float
}.

(** The outcome of running a method: it returns, it raises, or the model
    runs out of fuel (the Python loop would still be running). *)
Inductive outcome (A : Type) : Type :=
| Returns (a : A) (w : World)
| Raises (e : exn) (w : World)
| Timeout.

Arguments Returns {A} a w.
Arguments Raises {A} e w.
Arguments Timeout {A}.

Definition M (A : Type) : Type := World -> outcome A.

Definition ret {A : Type} (a : A) : M A := fun w => Returns a w.

Definition mbind {A B : Type} (m : M A) (k : A -> M B) : M B :=
  fun w =>
    match m w with
    | Returns a w' => k a w'
    | Raises e w' => Raises e w'
    | Timeout => Timeout
    end.

Declare Scope method_scope.
Delimit Scope method_scope with method.
Notation "x <~ e ;; k" := (mbind e (fun x => k))
  (at level 61, e at next level, right associativity) : method_scope.
Notation "' p <~ e ;; k" := (mbind e (fun p => k))
  (at level 61, p pattern, e at next level, right associativity) : method_scope.
Notation "e ;;; k" := (mbind e (fun _ => k))
  (at level 61, right associativity) : method_scope.
Local Open Scope method_scope.

(** An expression that only computes: its exception, if any, escapes. *)
Definition lift {A : Type} (r : result A) : M A :=
  fun w => match r with Ok a => Returns a w | Raise e => Raises e w end.

Definition get_self : M Network := fun w => Returns (self w) w.

(** [self.weights = ws] and [self.biases = bs]. *)
Definition set_weights (ws : list ndarray) : M unit :=
  fun w =>
    let net := self w in
    Returns tt (mk_World (mk_Network (num_layers net) (sizes net) (biases net) ws) (stdout w)).

Definition set_biases (bs : list ndarray) : M unit :=
  fun w =>
    let net := self w in
    Returns tt (mk_World (mk_Network (num_layers net) (sizes net) bs (weights net)) (stdout w)).

Definition print (a : float) : M unit :=
  fun w => Returns tt (mk_World (self w) (stdout w ++ [a])).

(** A [for] loop whose body runs in the world. *)
Fixpoint for_each {A S : Type} (body : S -> A -> M S) (l : list A) (acc : S) : M S :=
  match l with
  | [] => ret acc
  | a :: l' => acc' <~ body acc a ;; for_each body l' acc'
  end.

(** An example is a pair [(x, y)] of an input and a target array. *)
Definition example : Type := ndarray * ndarray.

(** What [evaluate] returns depends on its flag: a count, or the outputs. *)
Definition evaluation (accuracy : bool) : Type :=
  if accuracy then nat else list ndarray.

(** The literals 0.8 and 0.00001 as the doubles Python reads them as. *)
Definition accuracy_goal : float := 0x1.999999999999ap-1.
Definition accuracy_tol : float := 0x1.4f8b588e368f1p-17.

(** ** Entrywise and matrix operations on arrays of agreeing shapes

    The words of the specification (elementwise product, matrix product,
    outer product) read as total functions; the numpy operators above agree
    with them whenever the shapes agree. *)

Definition entrywise (f : float -> float -> float) (A B : ndarray) : ndarray :=
  tabulate (nrows A) (ncols A) (fun i j => f (item A i j) (item B i j)).

Definition plus : ndarray -> ndarray -> ndarray := entrywise PrimFloat.add.
Definition minus : ndarray -> ndarray -> ndarray := entrywise PrimFloat.sub.
Definition hadamard : ndarray -> ndarray -> ndarray := entrywise PrimFloat.mul.

Definition matmul (A B : ndarray) : ndarray :=
  tabulate (nrows A) (ncols B) (inner A B).

(** The array of no entries, the default of out-of-range lookups below. *)
Definition empty : ndarray := mk_ndarray 0 0 [].

(** W_l and b_l for the layers l = 1 .. L, as the specification numbers them. *)
Definition W (net : Network) (l : nat) : ndarray := nth (l - 1) (weights net) empty.
Definition b (net : Network) (l : nat) : ndarray := nth (l - 1) (biases net) empty.

(** The invariant of the data model: one bias vector and one weight matrix
    per layer transition, shaped by the adjacent layer sizes. *)
Definition well_shaped (net : Network) : Prop :=
  num_layers net = length (sizes net) /\
  length (biases net) = (length (sizes net) - 1)%nat /\
  length (weights net) = (length (sizes net) - 1)%nat /\
  forall i, (i < length (sizes net) - 1)%nat ->
    shape (nth i (biases net) empty) = (nth (S i) (sizes net) 0%nat, 1%nat) /\
    shape (nth i (weights net) empty) = (nth (S i) (sizes net) 0%nat, nth i (sizes net) 0%nat).

(** An example fits a network when its input is a column of [sizes[0]]
    entries and its target a column of [sizes[-1]] entries. *)
Definition fits (net : Network) (ex : example) : Prop :=
  shape (fst ex) = (hd 0%nat (sizes net), 1%nat) /\
  shape (snd ex) = (last (sizes net) 0%nat, 1%nat).

(** ** A reference exponential

    The theorems below hold for whatever [exp] the platform provides.  To run
    the model on concrete inputs a stand-in is needed: [exp_ref] scales the
    argument by 2^-10, sums the Taylor series and squares ten times.  Like the
    platform's routine it overflows to infinity and underflows to zero. *)

Fixpoint exp_series (n : nat) (k y : float) : float :=
  match n with
  | O => 1
  | S n' => 1 + y / k * exp_series n' (k + 1) y
  end.

Definition exp_ref (x : float) : float :=
  if PrimFloat.is_nan x then nan
  else if x <? -1000 then 0
  else if 1000 <? x then infinity
  else Nat.iter 10 (fun t => t * t) (exp_series 18 1 (x / 1024)).

(** ** A small network and training set, to run the model on *)

(** A column vector, and a matrix given by its rows. *)
Definition column (l : list float) : ndarray :=
  mk_ndarray (length l) 1 (map (fun v => [v]) l).

Definition matrix (l : list (list float)) : ndarray :=
  mk_ndarray (length l) (length (hd [] l)) l.

(** Layers of 2, 3 and 2 neurons.  The first output is the larger one on
    the input (1, 0) and the second on (0, 1), so the two examples below are
    classified correctly before any training. *)
Definition demo_net : Network :=
  mk_Network 3 [2; 3; 2]%nat
    [column [0; 0; 0]; column [0; 0]]
    [matrix [[1; -1]; [-1; 1]; [0.5; 0.5]]; matrix [[2; -2; 0]; [-2; 2; 0]]].

Definition demo_data : list example :=
  [(column [1; 0], column [1; 0]); (column [0; 1], column [0; 1])].

Definition demo_world : World := mk_World demo_net [].

(** The same inputs with the labels exchanged: [demo_net] classifies none of
    them as labelled. *)
Definition demo_data_mislabelled : list example :=
  [(column [1; 0], column [0; 1]); (column [0; 1], column [1; 0])].

(** A generator whose k-th draw is k/8 - 1. *)
Definition demo_gauss (k : nat) : float := Py.float_of_nat k / 8 - 1.

(** Layers of 2 and 1 neurons, with the parameters [demo_gauss] gives them,
    and a training set whose only example has a target of two entries, one
    more than the network has outputs. *)
Definition two_to_one_net : Network :=
  mk_Network 2 [2; 1]%nat [column [-1]] [matrix [[-0.875; -0.75]]].

Definition two_to_one_world : World := mk_World two_to_one_net [].

Definition two_entry_targets : list example :=
  [(column [1; 0], column [1; 0])].

(** The value a call returned and the world it left, for reading concrete
    runs. *)
Definition value_of {A : Type} (r : result A) (default : A) : A :=
  match r with Ok a => a | Raise _ => default end.

Definition returned {A : Type} (o : outcome A) (default : A) : A :=
  match o with Returns a _ => a | _ => default end.

Definition world_after {A : Type} (o : outcome A) (default : World) : World :=
  match o with Returns _ w | Raises _ w => w | Timeout => default end.

(** ** network.py *)

Section Network_py.

(** The platform's [exp] on doubles and the draws of numpy's global Gaussian
    generator: both live outside the repository. *)
Variable libm_exp : float -> float.
Variable gauss : nat -> float.

(** [1.0/(1.0 + np.exp(-z))] on one entry. *)
Definition sigmoid_scalar (v : float) : float := 1 / (1 + libm_exp (- v)).

(** [sigmoid(z)]: negation, [np.exp], the scalar addition and the scalar
    division each act entry by entry. *)
Definition sigmoid (z : ndarray) : ndarray :=
  amap (fun v => 1 / v) (amap (fun v => 1 + v) (np.exp libm_exp (amap PrimFloat.opp z))).

(** [sigmoid_prime(z) = sigmoid(z) * (1 - sigmoid(z))]. *)
Definition sigmoid_prime (z : ndarray) : result ndarray :=
  np.mul (sigmoid z) (amap (fun v => 1 - v) (sigmoid z)).

(** [Network.__init__]: the biases are drawn first, then the weights. *)
Fixpoint draw_all {A : Type} (f : A -> nat -> ndarray * nat) (l : list A) (pos : nat)
  : list ndarray * nat :=
  match l with
  | [] => ([], pos)
  | a :: l' =>
      let '(arr, pos1) := f a pos in
      let '(arrs, pos2) := draw_all f l' pos1 in
      (arr :: arrs, pos2)
  end.

Definition init (sizes : list nat) (pos : nat) : Network * nat :=
  let '(bs, pos1) := draw_all (fun y => np.randn gauss y 1) (tl sizes) pos in
  let '(ws, pos2) :=
    draw_all (fun '(x, y) => np.randn gauss y x) (Py.zip (removelast sizes) (tl sizes)) pos1 in
  (mk_Network (length sizes) sizes bs ws, pos2).

(** The loop of [feedforward] over [zip(self.biases, self.weights)]. *)
Fixpoint feed (layers : list (ndarray * ndarray)) (a : ndarray) : result ndarray :=
  match layers with
  | [] => Ok a
  | (bias, wgt) :: rest =>
      wa <- np.dot wgt a ;;
      z <- np.add wa bias ;;
      feed rest (sigmoid z)
  end.

Definition feedforward (net : Network) (a : ndarray) : result ndarray :=
  feed (Py.zip (biases net) (weights net)) a.

(** [cost_derivative(output_activations, y)]. *)
Definition cost_derivative (output_activations y : ndarray) : result ndarray :=
  np.sub output_activations y.

(** The feedforward loop of [backprop], which keeps every activation and
    every z. *)
Fixpoint forward_pass (layers : list (ndarray * ndarray)) (activation : ndarray)
  (activations zs : list ndarray) : result (list ndarray * list ndarray) :=
  match layers with
  | [] => Ok (activations, zs)
  | (bias, wgt) :: rest =>
      wa <- np.dot wgt activation ;;
      z <- np.add wa bias ;;
      let zs := zs ++ [z] in
      let activation := sigmoid z in
      let activations := activations ++ [activation] in
      forward_pass rest activation activations zs
  end.

(** The body of the backward loop for one [l] of [range(2, num_layers)]. *)
Definition backward_step (net : Network) (activations zs : list ndarray)
  (vars : ndarray * list ndarray * list ndarray) (l : Z)
  : result (ndarray * list ndarray * list ndarray) :=
  let '(delta, nabla_b, nabla_w) := vars in
  z <- Py.index zs (- l) ;;
  sp <- sigmoid_prime z ;;
  w <- Py.index (weights net) (- l + 1) ;;
  wd <- np.dot (np.transpose w) delta ;;
  delta <- np.mul wd sp ;;
  nabla_b <- Py.setitem nabla_b (- l) delta ;;
  a <- Py.index activations (- l - 1) ;;
  g <- np.dot delta (np.transpose a) ;;
  nabla_w <- Py.setitem nabla_w (- l) g ;;
  Ok (delta, nabla_b, nabla_w).

Definition backprop (net : Network) (x y : ndarray) : result (list ndarray * list ndarray) :=
  let nabla_b := map (fun bias => np.zeros (shape bias)) (biases net) in
  let nabla_w := map (fun wgt => np.zeros (shape wgt)) (weights net) in
  ' (activations, zs) <- forward_pass (Py.zip (biases net) (weights net)) x [x] [] ;;
  aL <- Py.index activations (-1) ;;
  cd <- cost_derivative aL y ;;
  zL <- Py.index zs (-1) ;;
  sp <- sigmoid_prime zL ;;
  delta <- np.mul cd sp ;;
  nabla_b <- Py.setitem nabla_b (-1) delta ;;
  a <- Py.index activations (-2) ;;
  g <- np.dot delta (np.transpose a) ;;
  nabla_w <- Py.setitem nabla_w (-1) g ;;
  ' (_, nabla_b, nabla_w) <-
    foldM (backward_step net activations zs) (Py.range 2 (num_layers net))
          (delta, nabla_b, nabla_w) ;;
  Ok (nabla_b, nabla_w).

(** [(np.argmax(self.feedforward(x)), np.argmax(y))] for one example. *)
Definition test_result (net : Network) (ex : example) : result (nat * nat) :=
  let '(x, y) := ex in
  out <- feedforward net x ;;
  y_pred <- np.argmax out ;;
  y_true <- np.argmax y ;;
  Ok (y_pred, y_true).

(** [sum(int(y_pred == y) for (y_pred, y) in test_results)]. *)
Definition count_matches (test_results : list (nat * nat)) : nat :=
  list_sum (map (fun '(y_pred, y) => if (y_pred =? y)%nat then 1%nat else 0%nat) test_results).

Definition evaluate (net : Network) (test_data : list example) (accuracy : bool)
  : result (evaluation accuracy) :=
  test_results <- mapM (test_result net) test_data ;;
  match accuracy return result (evaluation accuracy) with
  | true => Ok (count_matches test_results)
  | false => mapM (fun '(x, _) => feedforward net x) test_data
  end.

(** [[a + b for a, b in zip(nabla, delta_nabla)]]. *)
Definition add_all (nabla delta_nabla : list ndarray) : result (list ndarray) :=
  mapM (fun '(nb, dnb) => np.add nb dnb) (Py.zip nabla delta_nabla).

(** [[p - (learning_rate/len(training_data)) * n for p, n in zip(params, nabla)]]:
    the quotient is evaluated once per element. *)
Definition descend (learning_rate : float) (n_examples : nat) (params nabla : list ndarray)
  : result (list ndarray) :=
  mapM (fun '(p, n) =>
          rate <- Py.truediv learning_rate n_examples ;;
          np.sub p (amap (fun v => rate * v) n))
       (Py.zip params nabla).

(** The method calls [self.backprop(x, y)] and [self.evaluate(data, accuracy)]
    read the attributes of [self] and assign none. *)
Definition call_backprop (x y : ndarray) : M (list ndarray * list ndarray) :=
  net <~ get_self ;;
  lift (backprop net x y).

Definition call_evaluate (test_data : list example) (accuracy : bool)
  : M (evaluation accuracy) :=
  net <~ get_self ;;
  lift (evaluate net test_data accuracy).

(** The body of the inner [for x, y in training_data] loop. *)
Definition accumulate_one (nabla : list ndarray * list ndarray) (ex : example)
  : M (list ndarray * list ndarray) :=
  let '(nabla_b, nabla_w) := nabla in
  let '(x, y) := ex in
  ' (delta_nabla_b, delta_nabla_w) <~ call_backprop x y ;;
  nabla_b <~ lift (add_all nabla_b delta_nabla_b) ;;
  nabla_w <~ lift (add_all nabla_w delta_nabla_w) ;;
  ret (nabla_b, nabla_w).

(** The first half of the body of the [while] loop: the accumulator is
    zeroed, every example adds its gradient, then [self.weights] and
    [self.biases] are reassigned. *)
Definition gradient_step (training_data : list example) (learning_rate : float) : M unit :=
  net <~ get_self ;;
  let nabla_b := map (fun bias => np.zeros (shape bias)) (biases net) in
  let nabla_w := map (fun wgt => np.zeros (shape wgt)) (weights net) in
  ' (nabla_b, nabla_w) <~ for_each accumulate_one training_data (nabla_b, nabla_w) ;;
  net <~ get_self ;;
  ws <~ lift (descend learning_rate (length training_data) (weights net) nabla_w) ;;
  set_weights ws ;;;
  net <~ get_self ;;
  bs <~ lift (descend learning_rate (length training_data) (biases net) nabla_b) ;;
  set_biases bs.

(** The second half: the accuracy on the training set is measured and
    printed. *)
Definition measure (training_data : list example) : M float :=
  true_positives <~ call_evaluate training_data true ;;
  accuracy_new <~ lift (Py.truediv (Py.float_of_nat true_positives)
                                   (length training_data)) ;;
  print accuracy_new ;;;
  ret accuracy_new.

(** One pass through the body of the [while] loop, up to the [print]; it
    returns the new accuracy. *)
Definition epoch (training_data : list example) (learning_rate : float) : M float :=
  gradient_step training_data learning_rate ;;;
  measure training_data.

(** The [while accuracy_new < 0.8] loop; [fuel] bounds the number of epochs
    the model may run, the Python loop has no such bound. *)
Fixpoint SGD_loop (fuel : nat) (training_data : list example) (learning_rate : float)
  (accuracy_new : float) : M unit :=
  if accuracy_new <? accuracy_goal then
    match fuel with
    | O => fun _ => Timeout
    | S fuel' =>
        let accuracy_old := accuracy_new in
        accuracy_new <~ epoch training_data learning_rate ;;
        if abs (accuracy_new - accuracy_old) <? accuracy_tol
        then ret tt
        else SGD_loop fuel' training_data learning_rate accuracy_new
    end
  else ret tt.

Definition SGD (fuel : nat) (training_data : list example) (learning_rate : float)
  : M (list ndarray) :=
  SGD_loop fuel training_data learning_rate 0 ;;;
  call_evaluate training_data false.


(** ** The backpropagation equations, as the specification words them *)

(** [sigmoid_prime(z) = sigmoid(z) * (1 - sigmoid(z))], entry by entry. *)
Definition sigmoid_prime_entrywise (z : ndarray) : ndarray :=
  tabulate (nrows z) (ncols z)
    (fun i j => sigmoid_scalar (item z i j) * (1 - sigmoid_scalar (item z i j))).

(** activations[l] for l = 0 .. L: the input, then [sigmoid(W_l a_(l-1) + b_l)]. *)
Fixpoint activation_at (net : Network) (x : ndarray) (l : nat) : ndarray :=
  match l with
  | O => x
  | S l' => sigmoid (plus (matmul (W net l) (activation_at net x l')) (b net l))
  end.

(** preActivations[l] for l = 1 .. L. *)
Definition preactivation_at (net : Network) (x : ndarray) (l : nat) : ndarray :=
  plus (matmul (W net l) (activation_at net x (l - 1))) (b net l).

(** The error of layer L - k, walking backward from the output layer. *)
Fixpoint delta_below (net : Network) (x y : ndarray) (k : nat) : ndarray :=
  let L := length (weights net) in
  match k with
  | O => hadamard (minus (activation_at net x L) y)
                  (sigmoid_prime_entrywise (preactivation_at net x L))
  | S k' => hadamard (matmul (np.transpose (W net (L - k'))) (delta_below net x y k'))
                     (sigmoid_prime_entrywise (preactivation_at net x (L - k)))
  end.

(** The gradient of the weights of layer L - k: the outer product of the
    error with the activation of the layer below. *)
Definition nabla_w_below (net : Network) (x y : ndarray) (k : nat) : ndarray :=
  matmul (delta_below net x y k)
         (np.transpose (activation_at net x (length (weights net) - 1 - k))).

(** The state of the backward loop once the layers L, L-1, ..., L-k are done. *)
Definition backward_invariant (net : Network) (x y : ndarray) (k : nat)
  (vars : ndarray * list ndarray * list ndarray) : Prop :=
  let '(delta, nabla_b, nabla_w) := vars in
  let L := length (weights net) in
  delta = delta_below net x y k /\
  length nabla_b = L /\ length nabla_w = L /\
  forall j, (j <= k)%nat ->
    nth (L - 1 - j) nabla_b empty = delta_below net x y j /\
    nth (L - 1 - j) nabla_w empty = nabla_w_below net x y j.

(** ** Shapes and sums, for the training loop *)

(** The shapes [__init__] asks for, listed layer by layer. *)
Definition bias_shapes (sizes : list nat) : list (nat * nat) :=
  map (fun y => (y, 1%nat)) (tl sizes).

Definition weight_shapes (sizes : list nat) : list (nat * nat) :=
  map (fun '(x, y) => (y, x)) (Py.zip (removelast sizes) (tl sizes)).

(** [[g(p, n) for p, n in zip(l, l')]] for a body that cannot raise. *)
Definition zip_with (g : ndarray -> ndarray -> ndarray) (l l' : list ndarray) : list ndarray :=
  map (fun '(p, n) => g p n) (combine l l').

(** The gradient an example contributes; [backprop] does return one on a
    well-shaped network and a fitting example. *)
Definition gradient_of (net : Network) (ex : example) : list ndarray * list ndarray :=
  match backprop net (fst ex) (snd ex) with
  | Ok g => g
  | Raise _ => ([], [])
  end.

(** The sum the accumulator of position [i] holds after the examples of
    [data]: it starts from [start] and every example adds its gradient, in
    the order of the training set. *)
Definition sum_nabla_b (net : Network) (data : list example) (i : nat) (start : ndarray)
  : ndarray :=
  fold_left (fun acc ex => plus acc (nth i (fst (gradient_of net ex)) empty)) data start.

Definition sum_nabla_w (net : Network) (data : list example) (i : nat) (start : ndarray)
  : ndarray :=
  fold_left (fun acc ex => plus acc (nth i (snd (gradient_of net ex)) empty)) data start.

(** The parameter after the update: [p - rate * n]. *)
Definition descended (rate : float) (p n : ndarray) : ndarray :=
  minus p (amap (fun v => rate * v) n).

(** The accumulators after one more example: its gradient is computed by
    [backprop] under the parameters [net] and added, array by array, to what
    the accumulators hold. *)
Definition sum_gradients (net : Network) (nabla : list ndarray * list ndarray) (ex : example)
  : result (list ndarray * list ndarray) :=
  ' (delta_nabla_b, delta_nabla_w) <- backprop net (fst ex) (snd ex) ;;
  nabla_b <- mapM (fun '(nb, dnb) => np.add nb dnb) (combine (fst nabla) delta_nabla_b) ;;
  nabla_w <- mapM (fun '(nw, dnw) => np.add nw dnw) (combine (snd nabla) delta_nabla_w) ;;
  Ok (nabla_b, nabla_w).

(** The exit test at the end of an epoch: the accuracy is not below 0.8, or
    it moved by less than 0.00001 since the previous epoch. *)
Definition stops (accuracy_old accuracy_new : float) : bool :=
  negb (accuracy_new <? accuracy_goal) || (abs (accuracy_new - accuracy_old) <? accuracy_tol).

(** The accuracies of a run that has stopped: every epoch but the last
    failed the exit test and the last one passed it. *)
Fixpoint stops_at_last (accuracy_old : float) (accs : list float) : bool :=
  match accs with
  | [] => false
  | a :: rest =>
      match rest with
      | [] => stops accuracy_old a
      | _ :: _ => negb (stops accuracy_old a) && stops_at_last a rest
      end
  end.

(** The accuracies of a run that is still going: no epoch passed the test. *)
Fixpoint never_stops (accuracy_old : float) (accs : list float) : bool :=
  match accs with
  | [] => true
  | a :: rest => negb (stops accuracy_old a) && never_stops a rest
  end.

(** [n] passes through the body of the [while] loop, one after the other;
    the accuracies they print are returned. *)
Fixpoint run_epochs (n : nat) (training_data : list example) (learning_rate : float)
  : M (list float) :=
  match n with
  | O => ret []
  | S n' =>
      a <~ epoch training_data learning_rate ;;
      rest <~ run_epochs n' training_data learning_rate ;;
      ret (a :: rest)
  end.

(** [i] is the lowest index at which [l] takes its maximum. *)
Definition lowest_index_of_max (l : list float) (i : nat) : Prop :=
  (i < length l)%nat /\
  (forall j, (j < length l)%nat -> (nth j l 0 <=? nth i l 0) = true) /\
  (forall j, (j < i)%nat -> (nth j l 0 <? nth i l 0) = true).

Definition nan_free (l : list float) : Prop :=
  Forall (fun v => PrimFloat.is_nan v = false) l.

(** An array has a maximum when it has an entry and none is NaN. *)
Definition has_maximum (A : ndarray) : Prop :=
  np.ravel A <> [] /\ nan_free (np.ravel A).

(** [r] pairs the class the network predicts for [ex] with its labelled
    class: the lowest index of the maximum of the output, and of the target. *)
Definition scored (net : Network) (ex : example) (r : nat * nat) : Prop :=
  exists out,
    feedforward net (fst ex) = Ok out /\
    lowest_index_of_max (np.ravel out) (fst r) /\
    lowest_index_of_max (np.ravel (snd ex)) (snd r).

(** ** Lemmas on results, lists and arrays *)

Lemma mapM_length {A B : Type} (f : A -> result B) (l : list A) (out : list B) :
  mapM f l = Ok out -> length out = length l.
Proof.
  revert out. induction l as [|a l IH]; simpl; intros out H.
  - inversion H. reflexivity.
  - destruct (f a) as [v|e]; simpl in H; [|discriminate].
    destruct (mapM f l) as [vs|e]; simpl in H; [|discriminate].
    inversion H. simpl. f_equal. apply IH. reflexivity.
Qed.

Lemma mapM_nth {A B : Type} (f : A -> result B) (l : list A) (out : list B) (da : A) (db : B) :
  mapM f l = Ok out ->
  forall i, (i < length l)%nat -> f (nth i l da) = Ok (nth i out db).
Proof.
  revert out. induction l as [|a l IH]; simpl; intros out H i Hi.
  - lia.
  - destruct (f a) as [v|e] eqn:Ea; simpl in H; [|discriminate].
    destruct (mapM f l) as [vs|e] eqn:El; simpl in H; [|discriminate].
    inversion H; subst out. destruct i as [|i]; simpl.
    + exact Ea.
    + apply IH; [reflexivity | lia].
Qed.

Lemma length_update {A : Type} (l : list A) (k : nat) (v : A) :
  length (Py.update l k v) = length l.
Proof.
  revert k. induction l as [|a l IH]; intros [|k]; simpl; try reflexivity.
  f_equal. apply IH.
Qed.

Lemma nth_update_same {A : Type} (l : list A) (k : nat) (v d : A) :
  (k < length l)%nat -> nth k (Py.update l k v) d = v.
Proof.
  revert k. induction l as [|a l IH]; intros [|k]; simpl; intros H; try lia.
  - reflexivity.
  - apply IH. lia.
Qed.

Lemma nth_update_other {A : Type} (l : list A) (k i : nat) (v d : A) :
  i <> k -> nth i (Py.update l k v) d = nth i l d.
Proof.
  revert k i. induction l as [|a l IH]; intros [|k] [|i]; simpl; intros H;
    try reflexivity; try congruence.
  apply IH. congruence.
Qed.

(** A negative index [-k] with [1 <= k <= len(l)] reads position [len(l) - k]. *)
Lemma index_from_end {A : Type} (l : list A) (k : nat) (d : A) :
  (1 <= k <= length l)%nat ->
  Py.index l (- Z.of_nat k) = Ok (nth (length l - k) l d).
Proof.
  intros Hk. unfold Py.index.
  assert (Hneg : (- Z.of_nat k <? 0)%Z = true) by (apply Z.ltb_lt; lia).
  rewrite Hneg.
  assert (Hin : ((0 <=? Z.of_nat (length l) + - Z.of_nat k)
                 && (Z.of_nat (length l) + - Z.of_nat k <? Z.of_nat (length l)))%Z = true).
  { apply andb_true_intro. split; [apply Z.leb_le | apply Z.ltb_lt]; lia. }
  rewrite Hin.
  replace (Z.to_nat (Z.of_nat (length l) + - Z.of_nat k)) with (length l - k)%nat by lia.
  destruct (nth_error l (length l - k)) as [a|] eqn:E.
  - rewrite (nth_error_nth _ _ d E). reflexivity.
  - apply nth_error_None in E. lia.
Qed.

Lemma setitem_from_end {A : Type} (l : list A) (k : nat) (v : A) :
  (1 <= k <= length l)%nat ->
  Py.setitem l (- Z.of_nat k) v = Ok (Py.update l (length l - k) v).
Proof.
  intros Hk. unfold Py.setitem.
  assert (Hneg : (- Z.of_nat k <? 0)%Z = true) by (apply Z.ltb_lt; lia).
  rewrite Hneg.
  assert (Hin : ((0 <=? Z.of_nat (length l) + - Z.of_nat k)
                 && (Z.of_nat (length l) + - Z.of_nat k <? Z.of_nat (length l)))%Z = true).
  { apply andb_true_intro. split; [apply Z.leb_le | apply Z.ltb_lt]; lia. }
  rewrite Hin.
  replace (Z.to_nat (Z.of_nat (length l) + - Z.of_nat k)) with (length l - k)%nat by lia.
  reflexivity.
Qed.

Lemma shape_tabulate (r c : nat) (f : nat -> nat -> float) :
  shape (tabulate r c f) = (r, c).
Proof. reflexivity. Qed.

Lemma item_tabulate (r c : nat) (f : nat -> nat -> float) (i j : nat) :
  (i < r)%nat -> (j < c)%nat -> item (tabulate r c f) i j = f i j.
Proof.
  intros Hi Hj. unfold item, tabulate. simpl.
  rewrite (nth_indep _ [] (map (f 0%nat) (seq 0 c))) by (rewrite length_map, length_seq; exact Hi).
  rewrite (map_nth (fun i => map (f i) (seq 0 c)) (seq 0 r) 0%nat i).
  rewrite seq_nth by exact Hi. simpl.
  rewrite (nth_indep _ 0 (f i 0%nat)) by (rewrite length_map, length_seq; exact Hj).
  rewrite (map_nth (f i) (seq 0 c) 0%nat j).
  rewrite seq_nth by exact Hj. reflexivity.
Qed.

Lemma tabulate_ext (r c : nat) (f g : nat -> nat -> float) :
  (forall i j, (i < r)%nat -> (j < c)%nat -> f i j = g i j) ->
  tabulate r c f = tabulate r c g.
Proof.
  intros H. unfold tabulate. f_equal.
  apply map_ext_in. intros i Hi. apply in_seq in Hi.
  apply map_ext_in. intros j Hj. apply in_seq in Hj.
  apply H; lia.
Qed.

Lemma bdim_same (n : nat) : np.bdim n n = Some n.
Proof. unfold np.bdim. rewrite Nat.eqb_refl. reflexivity. Qed.

Lemma bitem_in_range (A : ndarray) (i j : nat) :
  (i < nrows A)%nat -> (j < ncols A)%nat -> np.bitem A i j = item A i j.
Proof.
  intros Hi Hj. unfold np.bitem.
  destruct (nrows A =? 1)%nat eqn:Er; destruct (ncols A =? 1)%nat eqn:Ec;
    try apply Nat.eqb_eq in Er; try apply Nat.eqb_eq in Ec;
    repeat match goal with
           | |- item A ?p ?q = item A i j =>
               replace p with i by lia; replace q with j by lia
           end; reflexivity.
Qed.

(** On arrays of one shape a binary ufunc is the entrywise operation. *)
Lemma broadcast_same_shape (f : float -> float -> float) (A B : ndarray) :
  shape A = shape B -> np.broadcast f A B = Ok (entrywise f A B).
Proof.
  unfold shape. intros H. inversion H as [[Hr Hc]].
  unfold np.broadcast. rewrite <- Hr, <- Hc, !bdim_same.
  f_equal. unfold entrywise. apply tabulate_ext. intros i j Hi Hj.
  rewrite !bitem_in_range; try reflexivity; lia.
Qed.

Lemma shape_entrywise (f : float -> float -> float) (A B : ndarray) :
  shape (entrywise f A B) = shape A.
Proof. reflexivity. Qed.

Lemma dot_aligned (A B : ndarray) :
  ncols A = nrows B -> np.dot A B = Ok (matmul A B).
Proof. intros H. unfold np.dot. rewrite H, Nat.eqb_refl. reflexivity. Qed.

Lemma dot_not_aligned (A B : ndarray) :
  ncols A <> nrows B -> np.dot A B = Raise ValueError.
Proof.
  intros H. unfold np.dot. apply Nat.eqb_neq in H. rewrite H. reflexivity.
Qed.

(** ** The sigmoid, entry by entry *)

Lemma shape_amap (f : float -> float) (A : ndarray) : shape (amap f A) = shape A.
Proof. reflexivity. Qed.

Lemma item_amap (f : float -> float) (A : ndarray) (i j : nat) :
  (i < nrows A)%nat -> (j < ncols A)%nat -> item (amap f A) i j = f (item A i j).
Proof. intros Hi Hj. unfold amap. apply item_tabulate; assumption. Qed.

Lemma shape_sigmoid (z : ndarray) : shape (sigmoid z) = shape z.
Proof. reflexivity. Qed.

Lemma item_sigmoid (z : ndarray) (i j : nat) :
  (i < nrows z)%nat -> (j < ncols z)%nat ->
  item (sigmoid z) i j = sigmoid_scalar (item z i j).
Proof.
  intros Hi Hj. unfold sigmoid, np.exp, sigmoid_scalar.
  repeat (rewrite item_amap; [| assumption | assumption]).
  reflexivity.
Qed.

Lemma sigmoid_prime_total (z : ndarray) :
  sigmoid_prime z = Ok (sigmoid_prime_entrywise z).
Proof.
  unfold sigmoid_prime, np.mul.
  rewrite broadcast_same_shape by reflexivity.
  f_equal. unfold entrywise, sigmoid_prime_entrywise.
  change (nrows (sigmoid z)) with (nrows z).
  change (ncols (sigmoid z)) with (ncols z).
  apply tabulate_ext. intros i j Hi Hj.
  rewrite item_amap by assumption.
  rewrite !item_sigmoid by assumption.
  reflexivity.
Qed.

Lemma shape_sigmoid_prime_entrywise (z : ndarray) :
  shape (sigmoid_prime_entrywise z) = shape z.
Proof. reflexivity. Qed.

(** C5 (amended).  [sigmoid] is the direct form [1.0/(1.0 + exp(-z))],
    entry by entry and without clamping.  Where [exp(-z)] overflows to
    infinity the entry is exactly 0, and where [exp(-z)] underflows to zero
    it is exactly 1: at inputs of large magnitude the value is an endpoint
    of the unit interval, not a point strictly inside it. *)
Theorem sigmoid_direct_form_saturates (z : ndarray) (i j : nat) :
  (i < nrows z)%nat -> (j < ncols z)%nat ->
  item (sigmoid z) i j = 1 / (1 + libm_exp (- item z i j)) /\
  (libm_exp (- item z i j) = infinity -> item (sigmoid z) i j = 0) /\
  (libm_exp (- item z i j) = 0 -> item (sigmoid z) i j = 1).
Proof.
  intros Hi Hj.
  rewrite (item_sigmoid z i j Hi Hj). unfold sigmoid_scalar.
  split; [reflexivity|]. split; intros E; rewrite E; reflexivity.
Qed.

(** ** Shapes along the forward pass *)

Lemma shape_W (net : Network) (l : nat) :
  well_shaped net -> (1 <= l <= length (weights net))%nat ->
  shape (W net l) = (nth l (sizes net) 0%nat, nth (l - 1) (sizes net) 0%nat).
Proof.
  intros (_ & _ & Hw & Hsh) Hl. unfold W.
  destruct (Hsh (l - 1)%nat) as [_ H]; [lia|].
  rewrite H. replace (S (l - 1)) with l by lia. reflexivity.
Qed.

Lemma shape_b (net : Network) (l : nat) :
  well_shaped net -> (1 <= l <= length (weights net))%nat ->
  shape (b net l) = (nth l (sizes net) 0%nat, 1%nat).
Proof.
  intros (_ & _ & Hw & Hsh) Hl. unfold b.
  destruct (Hsh (l - 1)%nat) as [H _]; [lia|].
  rewrite H. replace (S (l - 1)) with l by lia. reflexivity.
Qed.

Lemma shape_parts (A : ndarray) (r c : nat) :
  shape A = (r, c) -> nrows A = r /\ ncols A = c.
Proof. unfold shape. intros H. inversion H. split; reflexivity. Qed.

Lemma shape_activation_at (net : Network) (x : ndarray) (l : nat) :
  well_shaped net -> shape x = (hd 0%nat (sizes net), 1%nat) ->
  (l <= length (weights net))%nat ->
  shape (activation_at net x l) = (nth l (sizes net) 0%nat, 1%nat).
Proof.
  intros Hnet Hx. induction l as [|l IH]; intros Hl.
  - simpl. rewrite Hx. destruct (sizes net); reflexivity.
  - simpl activation_at. rewrite shape_sigmoid. unfold plus. rewrite shape_entrywise.
    unfold matmul. rewrite shape_tabulate.
    destruct (shape_parts _ _ _ (shape_W net (S l) Hnet ltac:(lia))) as [Hr _].
    destruct (shape_parts _ _ _ (IH ltac:(lia))) as [_ Hc].
    rewrite Hr, Hc. reflexivity.
Qed.

Lemma shape_preactivation_at (net : Network) (x : ndarray) (l : nat) :
  well_shaped net -> shape x = (hd 0%nat (sizes net), 1%nat) ->
  (1 <= l <= length (weights net))%nat ->
  shape (preactivation_at net x l) = (nth l (sizes net) 0%nat, 1%nat).
Proof.
  intros Hnet Hx Hl. unfold preactivation_at, plus. rewrite shape_entrywise.
  unfold matmul. rewrite shape_tabulate.
  destruct (shape_parts _ _ _ (shape_W net l Hnet Hl)) as [Hr _].
  destruct (shape_parts _ _ _ (shape_activation_at net x (l - 1) Hnet Hx ltac:(lia))) as [_ Hc].
  rewrite Hr, Hc. reflexivity.
Qed.

Lemma activation_at_succ (net : Network) (x : ndarray) (l : nat) :
  activation_at net x (S l) = sigmoid (preactivation_at net x (S l)).
Proof.
  unfold preactivation_at. simpl. rewrite Nat.sub_0_r. reflexivity.
Qed.

(** One layer of the forward pass on operands of the declared shapes. *)
Lemma forward_layer (net : Network) (x : ndarray) (m : nat) :
  well_shaped net -> shape x = (hd 0%nat (sizes net), 1%nat) ->
  (m < length (weights net))%nat ->
  (wa <- np.dot (nth m (weights net) empty) (activation_at net x m) ;;
   np.add wa (nth m (biases net) empty)) = Ok (preactivation_at net x (S m)).
Proof.
  intros Hnet Hx Hm.
  assert (HW : W net (S m) = nth m (weights net) empty).
  { unfold W. simpl. rewrite Nat.sub_0_r. reflexivity. }
  assert (Hb : b net (S m) = nth m (biases net) empty).
  { unfold b. simpl. rewrite Nat.sub_0_r. reflexivity. }
  rewrite <- HW, <- Hb.
  destruct (shape_parts _ _ _ (shape_W net (S m) Hnet ltac:(lia))) as [Hr Hc].
  destruct (shape_parts _ _ _ (shape_activation_at net x m Hnet Hx ltac:(lia))) as [Har Hac].
  rewrite dot_aligned.
  2:{ rewrite Hc, Har. simpl. rewrite Nat.sub_0_r. reflexivity. }
  simpl bind. unfold np.add. rewrite broadcast_same_shape.
  - unfold preactivation_at. simpl. rewrite Nat.sub_0_r. reflexivity.
  - rewrite (shape_b net (S m) Hnet ltac:(lia)).
    unfold matmul. rewrite shape_tabulate. rewrite Hr, Hac. reflexivity.
Qed.

Lemma skipn_nth_cons {A : Type} (l : list A) (m : nat) (d : A) :
  (m < length l)%nat -> skipn m l = nth m l d :: skipn (S m) l.
Proof.
  revert m. induction l as [|a l IH]; intros [|m]; simpl; intros H; try lia.
  - reflexivity.
  - apply IH. lia.
Qed.

Lemma forward_pass_cons (bias wgt : ndarray) (rest : list (ndarray * ndarray))
  (activation : ndarray) (activations zs : list ndarray) :
  forward_pass ((bias, wgt) :: rest) activation activations zs =
  (wa <- np.dot wgt activation ;;
   z <- np.add wa bias ;;
   forward_pass rest (sigmoid z) (activations ++ [sigmoid z]) (zs ++ [z])).
Proof. reflexivity. Qed.

Lemma forward_pass_from (net : Network) (x : ndarray) :
  well_shaped net -> shape x = (hd 0%nat (sizes net), 1%nat) ->
  forall k m, (m + k = length (weights net))%nat ->
    forward_pass (skipn m (Py.zip (biases net) (weights net)))
                 (activation_at net x m)
                 (map (activation_at net x) (seq 0 (S m)))
                 (map (preactivation_at net x) (seq 1 m))
    = Ok (map (activation_at net x) (seq 0 (S (length (weights net)))),
          map (preactivation_at net x) (seq 1 (length (weights net)))).
Proof.
  intros Hnet Hx.
  assert (Hlen : length (biases net) = length (weights net)).
  { destruct Hnet as (_ & Hb & Hw & _). lia. }
  induction k as [|k IH]; intros m Hm.
  - replace m with (length (weights net)) by lia.
    rewrite skipn_all2.
    + reflexivity.
    + unfold Py.zip. rewrite length_combine. lia.
  - rewrite (skipn_nth_cons _ m (empty, empty)).
    2:{ unfold Py.zip. rewrite length_combine. lia. }
    unfold Py.zip at 1. rewrite combine_nth by exact Hlen.
    rewrite forward_pass_cons.
    pose proof (forward_layer net x m Hnet Hx ltac:(lia)) as Hlayer.
    destruct (np.dot (nth m (weights net) empty) (activation_at net x m)) as [wa|e];
      cbn [bind] in Hlayer; [|discriminate].
    cbn [bind]. rewrite Hlayer. cbn [bind].
    rewrite <- activation_at_succ.
    replace (map (activation_at net x) (seq 0 (S m)) ++ [activation_at net x (S m)])
      with (map (activation_at net x) (seq 0 (S (S m)))).
    2:{ rewrite (seq_S (S m) 0), map_app. reflexivity. }
    replace (map (preactivation_at net x) (seq 1 m) ++ [preactivation_at net x (S m)])
      with (map (preactivation_at net x) (seq 1 (S m))).
    2:{ rewrite (seq_S m 1), map_app. reflexivity. }
    apply IH. lia.
Qed.

Lemma forward_pass_cached (net : Network) (x : ndarray) :
  well_shaped net -> shape x = (hd 0%nat (sizes net), 1%nat) ->
  forward_pass (Py.zip (biases net) (weights net)) x [x] []
  = Ok (map (activation_at net x) (seq 0 (S (length (weights net)))),
        map (preactivation_at net x) (seq 1 (length (weights net)))).
Proof.
  intros Hnet Hx.
  exact (forward_pass_from net x Hnet Hx (length (weights net)) 0%nat eq_refl).
Qed.

(** ** The backward pass *)

Lemma nth_activations (net : Network) (x : ndarray) (n i : nat) :
  (i < n)%nat -> nth i (map (activation_at net x) (seq 0 n)) empty = activation_at net x i.
Proof.
  intros Hi.
  rewrite (nth_indep _ empty (activation_at net x 0%nat)) by (rewrite length_map, length_seq; exact Hi).
  rewrite (map_nth (activation_at net x) (seq 0 n) 0%nat i).
  rewrite seq_nth by exact Hi. reflexivity.
Qed.

Lemma nth_preactivations (net : Network) (x : ndarray) (n i : nat) :
  (i < n)%nat ->
  nth i (map (preactivation_at net x) (seq 1 n)) empty = preactivation_at net x (S i).
Proof.
  intros Hi.
  rewrite (nth_indep _ empty (preactivation_at net x 0%nat)) by (rewrite length_map, length_seq; exact Hi).
  rewrite (map_nth (preactivation_at net x) (seq 1 n) 0%nat i).
  rewrite seq_nth by exact Hi. reflexivity.
Qed.

Lemma shape_delta_below (net : Network) (x y : ndarray) (k : nat) :
  well_shaped net -> shape x = (hd 0%nat (sizes net), 1%nat) ->
  (k < length (weights net))%nat ->
  shape (delta_below net x y k) = (nth (length (weights net) - k) (sizes net) 0%nat, 1%nat).
Proof.
  intros Hnet Hx. induction k as [|k IH]; intros Hk.
  - cbn [delta_below]. unfold hadamard, minus. rewrite !shape_entrywise.
    rewrite Nat.sub_0_r. apply shape_activation_at; [assumption | assumption | lia].
  - cbn [delta_below]. unfold hadamard. rewrite shape_entrywise.
    unfold matmul. rewrite shape_tabulate.
    destruct (shape_parts _ _ _ (IH ltac:(lia))) as [_ Hc]. rewrite Hc.
    destruct (shape_parts _ _ _ (shape_W net (length (weights net) - k) Hnet ltac:(lia)))
      as [_ HWc].
    change (nrows (np.transpose (W net (length (weights net) - k))))
      with (ncols (W net (length (weights net) - k))).
    rewrite HWc. f_equal. f_equal. lia.
Qed.

Lemma outer_product_aligned (net : Network) (x y : ndarray) (k : nat) :
  well_shaped net -> shape x = (hd 0%nat (sizes net), 1%nat) ->
  (k < length (weights net))%nat ->
  np.dot (delta_below net x y k)
         (np.transpose (activation_at net x (length (weights net) - 1 - k)))
  = Ok (nabla_w_below net x y k).
Proof.
  intros Hnet Hx Hk. apply dot_aligned.
  destruct (shape_parts _ _ _ (shape_delta_below net x y k Hnet Hx Hk)) as [_ Hc].
  destruct (shape_parts _ _ _
              (shape_activation_at net x (length (weights net) - 1 - k) Hnet Hx ltac:(lia)))
    as [_ Hac].
  rewrite Hc. change (nrows (np.transpose ?a)) with (ncols a). rewrite Hac. reflexivity.
Qed.

(** One turn of the backward loop, for [l = k + 2], takes the error of layer
    L - k to the error of layer L - k - 1 and stores its two gradients. *)
Lemma backward_step_spec (net : Network) (x y : ndarray) (k : nat)
  (nabla_b nabla_w : list ndarray) :
  well_shaped net -> shape x = (hd 0%nat (sizes net), 1%nat) ->
  (k + 2 <= length (weights net))%nat ->
  length nabla_b = length (weights net) -> length nabla_w = length (weights net) ->
  backward_step net
    (map (activation_at net x) (seq 0 (S (length (weights net)))))
    (map (preactivation_at net x) (seq 1 (length (weights net))))
    (delta_below net x y k, nabla_b, nabla_w) (Z.of_nat (k + 2))
  = Ok (delta_below net x y (S k),
        Py.update nabla_b (length (weights net) - (k + 2)) (delta_below net x y (S k)),
        Py.update nabla_w (length (weights net) - (k + 2)) (nabla_w_below net x y (S k))).
Proof.
  intros Hnet Hx Hk Hnb Hnw.
  set (L := length (weights net)) in *.
  unfold backward_step.
  (* z = zs[-l] *)
  rewrite (index_from_end _ (k + 2) empty) by (rewrite length_map, length_seq; lia).
  rewrite length_map, length_seq.
  rewrite nth_preactivations by lia.
  cbn [bind]. rewrite sigmoid_prime_total. cbn [bind].
  (* self.weights[-l+1] *)
  replace (- Z.of_nat (k + 2) + 1)%Z with (- Z.of_nat (k + 1))%Z by lia.
  rewrite (index_from_end _ (k + 1) empty) by (fold L; lia).
  fold L. cbn [bind].
  assert (HW : nth (L - (k + 1)) (weights net) empty = W net (L - k)).
  { unfold W. f_equal. lia. }
  rewrite HW.
  (* np.dot(w.transpose(), delta) * sp *)
  destruct (shape_parts _ _ _ (shape_W net (L - k) Hnet ltac:(fold L; lia))) as [HWr HWc].
  destruct (shape_parts _ _ _ (shape_delta_below net x y k Hnet Hx ltac:(fold L; lia)))
    as [Hdr Hdc].
  fold L in Hdr.
  rewrite dot_aligned.
  2:{ change (ncols (np.transpose ?a)) with (nrows a). rewrite HWr, Hdr. reflexivity. }
  cbn [bind]. unfold np.mul. rewrite broadcast_same_shape.
  2:{ unfold matmul. rewrite shape_tabulate, shape_sigmoid_prime_entrywise.
      rewrite (shape_preactivation_at net x (S (L - (k + 2))) Hnet Hx ltac:(fold L; lia)).
      change (nrows (np.transpose ?a)) with (ncols a). rewrite HWc, Hdc.
      f_equal. f_equal. lia. }
  cbn [bind].
  assert (Hdelta : entrywise PrimFloat.mul
                     (matmul (np.transpose (W net (L - k))) (delta_below net x y k))
                     (sigmoid_prime_entrywise (preactivation_at net x (S (L - (k + 2)))))
                   = delta_below net x y (S k)).
  { cbn [delta_below]. fold L. unfold hadamard.
    replace (S (L - (k + 2))) with (L - S k)%nat by lia. reflexivity. }
  rewrite Hdelta.
  (* nabla_b[-l] = delta *)
  rewrite setitem_from_end by lia. rewrite Hnb. cbn [bind].
  (* activations[-l-1] *)
  replace (- Z.of_nat (k + 2) - 1)%Z with (- Z.of_nat (k + 3))%Z by lia.
  rewrite (index_from_end _ (k + 3) empty) by (rewrite length_map, length_seq; lia).
  rewrite length_map, length_seq.
  rewrite nth_activations by lia.
  cbn [bind].
  replace (S L - (k + 3))%nat with (L - 1 - S k)%nat by lia.
  pose proof (outer_product_aligned net x y (S k) Hnet Hx ltac:(fold L; lia)) as Houter.
  fold L in Houter. rewrite Houter. cbn [bind].
  rewrite setitem_from_end by lia. rewrite Hnw. cbn [bind].
  reflexivity.
Qed.

Lemma foldM_cons {A S : Type} (f : S -> A -> result S) (a : A) (l : list A) (acc : S) :
  foldM f (a :: l) acc = (acc' <- f acc a ;; foldM f l acc').
Proof. reflexivity. Qed.

Lemma backward_loop_spec (net : Network) (x y : ndarray) :
  well_shaped net -> shape x = (hd 0%nat (sizes net), 1%nat) ->
  forall cnt k vars,
    (k + 1 + cnt = length (weights net))%nat ->
    backward_invariant net x y k vars ->
    exists vars',
      foldM (backward_step net
               (map (activation_at net x) (seq 0 (S (length (weights net)))))
               (map (preactivation_at net x) (seq 1 (length (weights net)))))
            (map Z.of_nat (seq (k + 2) cnt)) vars = Ok vars' /\
      backward_invariant net x y (length (weights net) - 1) vars'.
Proof.
  intros Hnet Hx. induction cnt as [|cnt IH]; intros k vars Hk Hinv.
  - exists vars. split; [reflexivity|].
    replace (length (weights net) - 1)%nat with k by lia. exact Hinv.
  - destruct vars as [[delta nabla_b] nabla_w].
    destruct Hinv as (Hdelta & Hnb & Hnw & Hdone). subst delta.
    change (map Z.of_nat (seq (k + 2) (S cnt)))
      with (Z.of_nat (k + 2) :: map Z.of_nat (seq (S k + 2) cnt)).
    rewrite foldM_cons.
    rewrite (backward_step_spec net x y k nabla_b nabla_w Hnet Hx ltac:(lia) Hnb Hnw).
    cbn [bind]. apply (IH (S k)); [lia|].
    unfold backward_invariant. rewrite !length_update.
    split; [reflexivity|]. split; [exact Hnb|]. split; [exact Hnw|].
    intros j Hj. destruct (Nat.eq_dec j (S k)) as [->|Hne].
    + replace (length (weights net) - 1 - S k)%nat with (length (weights net) - (k + 2))%nat by lia.
      rewrite !nth_update_same by lia. split; reflexivity.
    + rewrite !nth_update_other by lia. apply Hdone. lia.
Qed.

(** What [backprop] returns: the error of every layer and its outer product
    with the activation below, stored at the layer's position. *)
Lemma backprop_gradients (net : Network) (x y : ndarray) :
  well_shaped net -> (2 <= length (sizes net))%nat -> fits net (x, y) ->
  exists nabla_b nabla_w,
    backprop net x y = Ok (nabla_b, nabla_w) /\
    length nabla_b = length (weights net) /\
    length nabla_w = length (weights net) /\
    forall l, (1 <= l <= length (weights net))%nat ->
      nth (l - 1) nabla_b empty = delta_below net x y (length (weights net) - l) /\
      nth (l - 1) nabla_w empty = nabla_w_below net x y (length (weights net) - l).
Proof.
  intros Hnet Hsizes [Hx Hy]. simpl fst in Hx. simpl snd in Hy.
  pose proof Hnet as (Hnum & Hlb & Hlw & _).
  set (L := length (weights net)).
  assert (HL : (1 <= L)%nat) by (unfold L; lia).
  assert (Hlast : last (sizes net) 0%nat = nth L (sizes net) 0%nat).
  { unfold L. rewrite Hlw. clear. induction (sizes net) as [|n [|m l] IH]; try reflexivity.
    change (last (n :: m :: l) 0%nat) with (last (m :: l) 0%nat). rewrite IH.
    simpl. rewrite Nat.sub_0_r. reflexivity. }
  (* the statements before the loop *)
  assert (Hinit :
    exists vars,
      (' (activations, zs) <- forward_pass (Py.zip (biases net) (weights net)) x [x] [] ;;
       aL <- Py.index activations (-1) ;;
       cd <- cost_derivative aL y ;;
       zL <- Py.index zs (-1) ;;
       sp <- sigmoid_prime zL ;;
       delta <- np.mul cd sp ;;
       nabla_b <- Py.setitem (map (fun bias => np.zeros (shape bias)) (biases net)) (-1) delta ;;
       a <- Py.index activations (-2) ;;
       g <- np.dot delta (np.transpose a) ;;
       nabla_w <- Py.setitem (map (fun wgt => np.zeros (shape wgt)) (weights net)) (-1) g ;;
       ' (_, nabla_b, nabla_w) <-
         foldM (backward_step net activations zs) (Py.range 2 (num_layers net))
               (delta, nabla_b, nabla_w) ;;
       Ok (nabla_b, nabla_w))
      = Ok (snd (fst vars), snd vars) /\
      backward_invariant net x y (L - 1) vars).
  { rewrite (forward_pass_cached net x Hnet Hx). fold L. cbn [bind].
    change (-1)%Z with (- Z.of_nat 1)%Z. change (-2)%Z with (- Z.of_nat 2)%Z.
    rewrite (index_from_end _ 1 empty) by (rewrite length_map, length_seq; lia).
    rewrite length_map, length_seq. rewrite nth_activations by lia. cbn [bind].
    replace (S L - 1)%nat with L by lia.
    unfold cost_derivative, np.sub. rewrite broadcast_same_shape.
    2:{ rewrite (shape_activation_at net x L Hnet Hx ltac:(unfold L; lia)), Hy, Hlast.
        reflexivity. }
    cbn [bind].
    rewrite (index_from_end _ 1 empty) by (rewrite length_map, length_seq; lia).
    rewrite length_map, length_seq. rewrite nth_preactivations by lia. cbn [bind].
    replace (S (L - 1)) with L by lia.
    rewrite sigmoid_prime_total. cbn [bind].
    unfold np.mul. rewrite broadcast_same_shape.
    2:{ rewrite shape_entrywise, shape_sigmoid_prime_entrywise.
        rewrite (shape_activation_at net x L Hnet Hx ltac:(unfold L; lia)).
        rewrite (shape_preactivation_at net x L Hnet Hx ltac:(unfold L; lia)). reflexivity. }
    cbn [bind].
    change (entrywise PrimFloat.mul (entrywise PrimFloat.sub (activation_at net x L) y)
              (sigmoid_prime_entrywise (preactivation_at net x L)))
      with (delta_below net x y 0).
    rewrite setitem_from_end by (rewrite length_map; lia). rewrite length_map, Hlb, <- Hlw.
    fold L. cbn [bind].
    rewrite (index_from_end _ 2 empty) by (rewrite length_map, length_seq; lia).
    rewrite length_map, length_seq. rewrite nth_activations by lia. cbn [bind].
    replace (S L - 2)%nat with (L - 1 - 0)%nat by lia.
    pose proof (outer_product_aligned net x y 0 Hnet Hx ltac:(fold L; lia)) as Houter.
    fold L in Houter. rewrite Houter. cbn [bind].
    rewrite setitem_from_end by (rewrite length_map; lia). rewrite length_map. fold L.
    cbn [bind].
    unfold Py.range. rewrite Hnum.
    replace (length (sizes net) - 2)%nat with (L - 1)%nat by (unfold L; lia).
    destruct (backward_loop_spec net x y Hnet Hx (L - 1) 0
                (delta_below net x y 0,
                 Py.update (map (fun bias => np.zeros (shape bias)) (biases net)) (L - 1)
                   (delta_below net x y 0),
                 Py.update (map (fun wgt => np.zeros (shape wgt)) (weights net)) (L - 1)
                   (nabla_w_below net x y 0)))
      as (vars' & Hloop & Hinv').
    - fold L. lia.
    - unfold backward_invariant. fold L. rewrite !length_update, !length_map.
      split; [reflexivity|]. split; [lia|]. split; [reflexivity|].
      intros j Hj. replace j with 0%nat by lia. rewrite Nat.sub_0_r.
      rewrite !nth_update_same by (rewrite length_map; lia). split; reflexivity.
    - fold L in Hloop, Hinv'. exists vars'. cbn [Nat.add] in Hloop. rewrite Hloop.
      cbn [bind]. destruct vars' as [[d' nb'] nw']. split; [reflexivity | exact Hinv']. }
  destruct Hinit as ([[d nabla_b] nabla_w] & Hrun & Hinv).
  exists nabla_b, nabla_w. split; [exact Hrun|].
  destruct Hinv as (_ & Hnb & Hnw & Hdone). fold L in Hnb, Hnw, Hdone.
  split; [exact Hnb|]. split; [exact Hnw|].
  intros l Hl. destruct (Hdone (L - l)%nat ltac:(lia)) as [Hb' Hw'].
  replace (L - 1 - (L - l))%nat with (l - 1)%nat in Hb', Hw' by lia.
  split; assumption.
Qed.

(** C1.  On a well-shaped network and an example that fits it, [backprop]
    returns one gradient per layer and these satisfy the backpropagation
    equations: writing delta_l for the bias gradient of layer l, the output
    error is delta_L = (a_L - y) * sigmoid_prime(z_L) entrywise; for each
    hidden layer delta_l = (W_(l+1)^T delta_(l+1)) * sigmoid_prime(z_l); the
    weight gradient of layer l is the outer product delta_l a_(l-1)^T; and
    every gradient has the shape of the parameter it belongs to. *)
Theorem backprop_equations (net : Network) (x y : ndarray) :
  well_shaped net -> (2 <= length (sizes net))%nat -> fits net (x, y) ->
  exists nabla_b nabla_w,
    backprop net x y = Ok (nabla_b, nabla_w) /\
    let L := length (weights net) in
    let a := activation_at net x in
    let z := preactivation_at net x in
    let delta := fun l => nth (l - 1)%nat nabla_b empty in
    length nabla_b = L /\ length nabla_w = L /\
    delta L = hadamard (minus (a L) y) (sigmoid_prime_entrywise (z L)) /\
    (forall l, (1 <= l < L)%nat ->
       delta l = hadamard (matmul (np.transpose (W net (l + 1)%nat)) (delta (l + 1)%nat))
                          (sigmoid_prime_entrywise (z l))) /\
    (forall l, (1 <= l <= L)%nat ->
       nth (l - 1)%nat nabla_w empty = matmul (delta l) (np.transpose (a (l - 1)%nat)) /\
       shape (delta l) = shape (b net l) /\
       shape (nth (l - 1)%nat nabla_w empty) = shape (W net l)).
Proof.
  intros Hnet Hsizes Hfit. pose proof Hfit as [Hx _]. simpl fst in Hx.
  destruct (backprop_gradients net x y Hnet Hsizes Hfit)
    as (nabla_b & nabla_w & Hrun & Hnb & Hnw & Hat).
  exists nabla_b, nabla_w. split; [exact Hrun|].
  set (L := length (weights net)) in *.
  assert (HL : (1 <= L)%nat) by (destruct Hnet as (_ & _ & Hlw & _); unfold L; lia).
  cbv zeta.
  split; [exact Hnb|]. split; [exact Hnw|].
  assert (Hb_at : forall l, (1 <= l <= L)%nat ->
                    nth (l - 1) nabla_b empty = delta_below net x y (L - l)).
  { intros l Hl. apply (Hat l Hl). }
  assert (Hw_at : forall l, (1 <= l <= L)%nat ->
                    nth (l - 1) nabla_w empty = nabla_w_below net x y (L - l)).
  { intros l Hl. apply (Hat l Hl). }
  split.
  { rewrite Hb_at by lia. rewrite Nat.sub_diag. reflexivity. }
  split.
  { intros l Hl. rewrite Hb_at by lia.
    replace (l + 1 - 1)%nat with (S l - 1)%nat by lia.
    rewrite (Hb_at (S l)) by lia.
    replace (L - l)%nat with (S (L - S l)) by lia.
    cbn [delta_below]. fold L.
    replace (L - (L - S l))%nat with (l + 1)%nat by lia.
    replace (L - S (L - S l))%nat with l by lia. reflexivity. }
  intros l Hl. rewrite Hw_at, Hb_at by lia.
  split.
  { unfold nabla_w_below. fold L. replace (L - 1 - (L - l))%nat with (l - 1)%nat by lia.
    reflexivity. }
  assert (Hsd : shape (delta_below net x y (L - l)) = (nth l (sizes net) 0%nat, 1%nat)).
  { rewrite (shape_delta_below net x y (L - l) Hnet Hx) by (fold L; lia).
    fold L. f_equal. f_equal. lia. }
  split.
  { rewrite Hsd. symmetry. apply shape_b; [exact Hnet | fold L; lia]. }
  rewrite (shape_W net l Hnet) by (fold L; lia).
  unfold nabla_w_below, matmul. rewrite shape_tabulate.
  destruct (shape_parts _ _ _ Hsd) as [Hr _]. rewrite Hr.
  change (ncols (np.transpose ?a)) with (nrows a).
  destruct (shape_parts _ _ _
              (shape_activation_at net x (length (weights net) - 1 - (L - l)) Hnet Hx
                 ltac:(fold L; lia))) as [Har _].
  rewrite Har. f_equal. f_equal. unfold L. lia.
Qed.

(** ** The shape invariant *)

Lemma nth_tl {A : Type} (l : list A) (i : nat) (d : A) : nth i (tl l) d = nth (S i) l d.
Proof. destruct l as [|a l]; destruct i; reflexivity. Qed.

Lemma length_tl {A : Type} (l : list A) : length (tl l) = (length l - 1)%nat.
Proof. destruct l; simpl; lia. Qed.

Lemma length_removelast {A : Type} (l : list A) :
  length (removelast l) = (length l - 1)%nat.
Proof.
  induction l as [|a [|a' l] IH]; try reflexivity.
  change (removelast (a :: a' :: l)) with (a :: removelast (a' :: l)).
  simpl length in *. rewrite IH. lia.
Qed.

Lemma nth_removelast {A : Type} (l : list A) (i : nat) (d : A) :
  (i < length l - 1)%nat -> nth i (removelast l) d = nth i l d.
Proof.
  revert i. induction l as [|a [|a' l] IH]; intros i Hi; simpl in Hi; try lia.
  change (removelast (a :: a' :: l)) with (a :: removelast (a' :: l)).
  destruct i as [|i]; [reflexivity|].
  simpl nth. apply IH. simpl. lia.
Qed.

Lemma nth_map_in_range {A B : Type} (f : A -> B) (l : list A) (i : nat) (d : A) (d' : B) :
  (i < length l)%nat -> nth i (map f l) d' = f (nth i l d).
Proof.
  intros Hi. rewrite (nth_indep _ d' (f d)) by (rewrite length_map; exact Hi).
  apply map_nth.
Qed.

Lemma nth_shapes (l : list ndarray) (sh : list (nat * nat)) (i : nat) :
  map shape l = sh -> (i < length sh)%nat ->
  shape (nth i l empty) = nth i sh (0%nat, 0%nat).
Proof.
  intros H Hi. subst sh. rewrite length_map in Hi.
  change (0%nat, 0%nat) with (shape empty). rewrite map_nth. reflexivity.
Qed.

Lemma well_shaped_of_lists (net : Network) :
  num_layers net = length (sizes net) ->
  map shape (biases net) = bias_shapes (sizes net) ->
  map shape (weights net) = weight_shapes (sizes net) ->
  well_shaped net.
Proof.
  intros Hn Hb Hw.
  assert (Hlb : length (bias_shapes (sizes net)) = (length (sizes net) - 1)%nat).
  { unfold bias_shapes. rewrite length_map. apply length_tl. }
  assert (Hlw : length (weight_shapes (sizes net)) = (length (sizes net) - 1)%nat).
  { unfold weight_shapes, Py.zip.
    rewrite length_map, length_combine, length_removelast, length_tl. lia. }
  split; [exact Hn|].
  split; [rewrite <- Hlb, <- Hb, length_map; reflexivity|].
  split; [rewrite <- Hlw, <- Hw, length_map; reflexivity|].
  intros i Hi. split.
  - rewrite (nth_shapes _ _ i Hb) by lia. unfold bias_shapes.
    rewrite (nth_map_in_range _ _ i 0%nat) by (rewrite length_tl; exact Hi).
    rewrite nth_tl. reflexivity.
  - rewrite (nth_shapes _ _ i Hw) by lia. unfold weight_shapes, Py.zip.
    rewrite (nth_map_in_range _ _ i (0%nat, 0%nat))
      by (rewrite length_combine, length_removelast, length_tl; lia).
    rewrite combine_nth by (rewrite length_removelast, length_tl; reflexivity).
    rewrite nth_tl, nth_removelast by exact Hi. reflexivity.
Qed.

Lemma draw_all_shapes {A : Type} (f : A -> nat -> ndarray * nat) (g : A -> nat * nat)
  (l : list A) (pos : nat) :
  (forall a p, shape (fst (f a p)) = g a) ->
  map shape (fst (draw_all f l pos)) = map g l.
Proof.
  intros Hf. revert pos. induction l as [|a l IH]; intros pos; [reflexivity|].
  cbn [draw_all]. specialize (Hf a pos). destruct (f a pos) as [arr pos1].
  specialize (IH pos1). destruct (draw_all f l pos1) as [arrs pos2].
  simpl in *. rewrite Hf, IH. reflexivity.
Qed.

Lemma init_attributes (layer_sizes : list nat) (pos : nat) :
  num_layers (fst (init layer_sizes pos)) = length layer_sizes /\
  sizes (fst (init layer_sizes pos)) = layer_sizes /\
  map shape (biases (fst (init layer_sizes pos))) = bias_shapes layer_sizes /\
  map shape (weights (fst (init layer_sizes pos))) = weight_shapes layer_sizes.
Proof.
  unfold init.
  pose proof (draw_all_shapes (fun y => np.randn gauss y 1) (fun y => (y, 1%nat))
                (tl layer_sizes) pos (fun a p => eq_refl)) as Hb.
  destruct (draw_all (fun y => np.randn gauss y 1) (tl layer_sizes) pos) as [bs pos1].
  pose proof (draw_all_shapes (fun '(x, y) => np.randn gauss y x) (fun '(x, y) => (y, x))
                (Py.zip (removelast layer_sizes) (tl layer_sizes)) pos1) as Hw.
  destruct (draw_all (fun '(x, y) => np.randn gauss y x)
              (Py.zip (removelast layer_sizes) (tl layer_sizes)) pos1) as [ws pos2].
  simpl in *. repeat split.
  - exact Hb.
  - apply Hw. intros [x y] p. reflexivity.
Qed.

Lemma init_well_shaped (layer_sizes : list nat) (pos : nat) :
  well_shaped (fst (init layer_sizes pos)).
Proof.
  destruct (init_attributes layer_sizes pos) as (Hn & Hs & Hb & Hw).
  apply well_shaped_of_lists; rewrite Hs; assumption.
Qed.

(** ** Accumulating and applying gradients *)

Lemma map_shape_length (l l' : list ndarray) :
  map shape l = map shape l' -> length l = length l'.
Proof. intros H. rewrite <- (length_map shape l), H. apply length_map. Qed.

Lemma map_shape_nth (l l' : list ndarray) (i : nat) :
  map shape l = map shape l' -> shape (nth i l empty) = shape (nth i l' empty).
Proof.
  intros H. rewrite <- (map_nth shape l empty i), <- (map_nth shape l' empty i), H.
  reflexivity.
Qed.

Lemma map_shape_of_nth (l l' : list ndarray) :
  length l = length l' ->
  (forall i, (i < length l)%nat -> shape (nth i l empty) = shape (nth i l' empty)) ->
  map shape l = map shape l'.
Proof.
  intros Hlen H. apply (nth_ext _ _ (shape empty) (shape empty)).
  - rewrite !length_map. exact Hlen.
  - intros i Hi. rewrite length_map in Hi. rewrite !map_nth. apply H. exact Hi.
Qed.

Lemma nth_zip_with (g : ndarray -> ndarray -> ndarray) (l l' : list ndarray) (i : nat) :
  length l = length l' -> (i < length l)%nat ->
  nth i (zip_with g l l') empty = g (nth i l empty) (nth i l' empty).
Proof.
  intros Hlen Hi. unfold zip_with.
  rewrite (nth_map_in_range _ _ i (empty, empty)) by (rewrite length_combine; lia).
  rewrite combine_nth by exact Hlen. reflexivity.
Qed.

Lemma length_zip_with (g : ndarray -> ndarray -> ndarray) (l l' : list ndarray) :
  length l = length l' -> length (zip_with g l l') = length l.
Proof. intros H. unfold zip_with. rewrite length_map, length_combine. lia. Qed.

Lemma zip_with_shapes (g : ndarray -> ndarray -> ndarray) (l l' : list ndarray) :
  (forall p n, shape (g p n) = shape p) ->
  length l = length l' ->
  map shape (zip_with g l l') = map shape l.
Proof.
  intros Hg Hlen. apply map_shape_of_nth.
  - apply length_zip_with. exact Hlen.
  - intros i Hi. rewrite length_zip_with in Hi by exact Hlen.
    rewrite nth_zip_with by assumption. apply Hg.
Qed.

(** A comprehension over [zip(l, l')] whose body succeeds on operands of one
    shape. *)
Lemma mapM_zip_same_shape (F : ndarray * ndarray -> result ndarray)
  (g : ndarray -> ndarray -> ndarray) (l l' : list ndarray) :
  (forall p n, shape p = shape n -> F (p, n) = Ok (g p n)) ->
  map shape l = map shape l' ->
  mapM F (Py.zip l l') = Ok (zip_with g l l').
Proof.
  intros HF. revert l'. induction l as [|p l IH]; intros [|n l'] H; simpl in H;
    try discriminate; try reflexivity.
  assert (Hpn : shape p = shape n) by congruence.
  assert (Hrest : map shape l = map shape l') by congruence.
  unfold Py.zip, zip_with. cbn [combine mapM map].
  rewrite (HF p n Hpn). cbn [bind].
  specialize (IH l' Hrest). unfold Py.zip, zip_with in IH. rewrite IH. reflexivity.
Qed.

Lemma add_all_total (nabla delta_nabla : list ndarray) :
  map shape nabla = map shape delta_nabla ->
  add_all nabla delta_nabla = Ok (zip_with plus nabla delta_nabla).
Proof.
  intros H. unfold add_all. apply mapM_zip_same_shape; [|exact H].
  intros p n Hpn. unfold np.add. apply broadcast_same_shape. exact Hpn.
Qed.

Lemma descend_total (learning_rate rate : float) (n_examples : nat)
  (params nabla : list ndarray) :
  Py.truediv learning_rate n_examples = Ok rate ->
  map shape params = map shape nabla ->
  descend learning_rate n_examples params nabla = Ok (zip_with (descended rate) params nabla).
Proof.
  intros Hrate H. unfold descend. apply mapM_zip_same_shape; [|exact H].
  intros p n Hpn. rewrite Hrate. cbn [bind]. unfold np.sub.
  apply broadcast_same_shape. rewrite shape_amap. exact Hpn.
Qed.

Lemma descend_raises (learning_rate : float) (n_examples : nat) (e : exn)
  (p n : ndarray) (params nabla : list ndarray) :
  Py.truediv learning_rate n_examples = Raise e ->
  descend learning_rate n_examples (p :: params) (n :: nabla) = Raise e.
Proof.
  intros Hrate. unfold descend, Py.zip. cbn [combine mapM]. rewrite Hrate. reflexivity.
Qed.

(** The gradients [backprop] returns have the shapes of the parameters. *)
Lemma backprop_shapes (net : Network) (ex : example) :
  well_shaped net -> (2 <= length (sizes net))%nat -> fits net ex ->
  exists g,
    backprop net (fst ex) (snd ex) = Ok g /\
    map shape (fst g) = map shape (biases net) /\
    map shape (snd g) = map shape (weights net).
Proof.
  intros Hnet Hsizes Hfit. destruct ex as [x y].
  destruct (backprop_gradients net x y Hnet Hsizes Hfit)
    as (nabla_b & nabla_w & Hrun & Hnb & Hnw & Hat).
  pose proof Hfit as [Hx _]. simpl fst in Hx.
  pose proof Hnet as (_ & Hlb & Hlw & _).
  exists (nabla_b, nabla_w). split; [exact Hrun|]. cbn [fst snd].
  split; apply map_shape_of_nth; try lia.
  - intros i Hi. destruct (Hat (S i) ltac:(lia)) as [Hb' _].
    cbn [Nat.sub] in Hb'. rewrite Nat.sub_0_r in Hb'. rewrite Hb'.
    rewrite (shape_delta_below net x y _ Hnet Hx) by lia.
    pose proof (shape_b net (S i) Hnet ltac:(lia)) as Hsb. unfold b in Hsb.
    cbn [Nat.sub] in Hsb. rewrite Nat.sub_0_r in Hsb. rewrite Hsb.
    f_equal. f_equal. lia.
  - intros i Hi. destruct (Hat (S i) ltac:(lia)) as [_ Hw'].
    cbn [Nat.sub] in Hw'. rewrite Nat.sub_0_r in Hw'. rewrite Hw'.
    unfold nabla_w_below, matmul. rewrite shape_tabulate.
    destruct (shape_parts _ _ _
                (shape_delta_below net x y (length (weights net) - S i) Hnet Hx ltac:(lia)))
      as [Hr _].
    destruct (shape_parts _ _ _
                (shape_activation_at net x
                   (length (weights net) - 1 - (length (weights net) - S i)) Hnet Hx
                   ltac:(lia))) as [Har _].
    change (ncols (np.transpose ?a)) with (nrows a). rewrite Hr, Har.
    pose proof (shape_W net (S i) Hnet ltac:(lia)) as HsW. unfold W in HsW.
    cbn [Nat.sub] in HsW. rewrite Nat.sub_0_r in HsW. rewrite HsW.
    f_equal; f_equal; lia.
Qed.

Lemma gradient_of_shapes (net : Network) (ex : example) :
  well_shaped net -> (2 <= length (sizes net))%nat -> fits net ex ->
  backprop net (fst ex) (snd ex) = Ok (gradient_of net ex) /\
  map shape (fst (gradient_of net ex)) = map shape (biases net) /\
  map shape (snd (gradient_of net ex)) = map shape (weights net).
Proof.
  intros Hnet Hsizes Hfit.
  destruct (backprop_shapes net ex Hnet Hsizes Hfit) as (g & Hrun & Hb & Hw).
  unfold gradient_of. rewrite Hrun. repeat split; assumption.
Qed.

(** ** What a method call leaves of the world *)

Lemma accumulate_one_world (nabla : list ndarray * list ndarray) (ex : example) (w : World) :
  match accumulate_one nabla ex w with
  | Returns _ w1 => w1 = w
  | Raises _ w1 => w1 = w
  | Timeout => False
  end.
Proof.
  destruct nabla as [nabla_b nabla_w], ex as [x y].
  unfold accumulate_one, call_backprop, mbind, get_self, lift, ret.
  destruct (backprop (self w) x y) as [[dnb dnw]|e]; [|reflexivity].
  destruct (add_all nabla_b dnb) as [nb|e]; [|reflexivity].
  destruct (add_all nabla_w dnw) as [nw|e]; reflexivity.
Qed.

(** No parameter changes while the gradients are accumulated. *)
Lemma for_each_accumulate_world (data : list example) (nabla : list ndarray * list ndarray)
  (w : World) :
  match for_each accumulate_one data nabla w with
  | Returns _ w1 => w1 = w
  | Raises _ w1 => w1 = w
  | Timeout => False
  end.
Proof.
  revert nabla. induction data as [|ex data IH]; intros nabla; [reflexivity|].
  cbn [for_each]. unfold mbind at 1.
  pose proof (accumulate_one_world nabla ex w) as H1.
  destruct (accumulate_one nabla ex w) as [nabla' w1|e w1|]; try exact H1.
  subst w1. apply IH.
Qed.

Lemma gradient_step_world (data : list example) (learning_rate : float) (w : World) :
  match gradient_step data learning_rate w with
  | Returns _ w1 | Raises _ w1 =>
      stdout w1 = stdout w /\
      num_layers (self w1) = num_layers (self w) /\
      sizes (self w1) = sizes (self w)
  | Timeout => False
  end.
Proof.
  unfold gradient_step. unfold mbind at 1. unfold get_self at 1. unfold mbind at 1.
  pose proof (for_each_accumulate_world data
                (map (fun bias => np.zeros (shape bias)) (biases (self w)),
                 map (fun wgt => np.zeros (shape wgt)) (weights (self w))) w) as Hacc.
  destruct (for_each accumulate_one data _ w) as [[nabla_b nabla_w] w1|e w1|];
    try (subst w1; repeat split; reflexivity); try exact Hacc.
  subst w1. unfold mbind, get_self, lift, set_weights, set_biases.
  destruct (descend learning_rate (length data) (weights (self w)) nabla_w) as [ws|e];
    [|repeat split; reflexivity].
  cbn [self biases]. 
  destruct (descend learning_rate (length data) (biases (self w)) nabla_b) as [bs|e];
    repeat split; reflexivity.
Qed.

Lemma measure_world (data : list example) (w : World) :
  match measure data w with
  | Returns a w1 =>
      w1 = mk_World (self w) (stdout w ++ [a]) /\
      exists n, evaluate (self w) data true = Ok n
  | Raises _ w1 => w1 = w
  | Timeout => False
  end.
Proof.
  unfold measure, call_evaluate, mbind, get_self, lift, print, ret.
  destruct (evaluate (self w) data true) as [n|e]; [|reflexivity].
  destruct (Py.truediv (Py.float_of_nat n) (length data)) as [a|e];
    [|reflexivity].
  split; [reflexivity | exists n; reflexivity].
Qed.

Lemma epoch_split (data : list example) (learning_rate : float) (w : World) :
  epoch data learning_rate w =
  match gradient_step data learning_rate w with
  | Returns _ w1 => measure data w1
  | Raises e w1 => Raises e w1
  | Timeout => Timeout
  end.
Proof. reflexivity. Qed.

Lemma epoch_world (data : list example) (learning_rate : float) (w : World) :
  match epoch data learning_rate w with
  | Returns a w1 =>
      stdout w1 = stdout w ++ [a] /\
      num_layers (self w1) = num_layers (self w) /\
      sizes (self w1) = sizes (self w) /\
      exists n, evaluate (self w1) data true = Ok n
  | Raises _ w1 =>
      stdout w1 = stdout w /\
      num_layers (self w1) = num_layers (self w) /\
      sizes (self w1) = sizes (self w)
  | Timeout => False
  end.
Proof.
  rewrite epoch_split.
  pose proof (gradient_step_world data learning_rate w) as Hg.
  destruct (gradient_step data learning_rate w) as [[] w1|e w1|]; try exact Hg.
  destruct Hg as (Hout & Hn & Hs).
  pose proof (measure_world data w1) as Hm.
  destruct (measure data w1) as [a w2|e w2|]; try exact Hm.
  - destruct Hm as [-> Hev]. cbn [stdout self]. rewrite Hout. repeat split; assumption.
  - subst w2. repeat split; assumption.
Qed.

(** ** The training loop as a run of epochs *)

Lemma SGD_loop_unfold (fuel : nat) (data : list example) (learning_rate accuracy : float) :
  SGD_loop (S fuel) data learning_rate accuracy =
  if accuracy <? accuracy_goal then
    (a <~ epoch data learning_rate ;;
     if abs (a - accuracy) <? accuracy_tol
     then ret tt
     else SGD_loop fuel data learning_rate a)
  else ret tt.
Proof. reflexivity. Qed.

Lemma SGD_loop_at_goal (fuel : nat) (data : list example) (learning_rate accuracy : float) :
  (accuracy <? accuracy_goal) = false ->
  SGD_loop fuel data learning_rate accuracy = ret tt.
Proof. intros H. destruct fuel; cbn [SGD_loop]; rewrite H; reflexivity. Qed.

Lemma stops_at_last_cons (accuracy_old a : float) (accs : list float) :
  stops accuracy_old a = false -> stops_at_last a accs = true ->
  stops_at_last accuracy_old (a :: accs) = true.
Proof.
  intros H1 H2. destruct accs as [|a' accs]; [discriminate H2|].
  cbn [stops_at_last] in *. rewrite H1. exact H2.
Qed.

Lemma run_epochs_succ (n : nat) (data : list example) (learning_rate : float) (w : World) :
  run_epochs (S n) data learning_rate w =
  match epoch data learning_rate w with
  | Returns a w1 =>
      match run_epochs n data learning_rate w1 with
      | Returns rest w2 => Returns (a :: rest) w2
      | Raises e w2 => Raises e w2
      | Timeout => Timeout
      end
  | Raises e w1 => Raises e w1
  | Timeout => Timeout
  end.
Proof. reflexivity. Qed.

(** The loop runs epochs until the first one that passes the exit test, and
    it is the exit test alone that ends it. *)
Lemma SGD_loop_runs_epochs (data : list example) (learning_rate : float) :
  forall fuel accuracy w,
    (accuracy <? accuracy_goal) = true ->
    match SGD_loop fuel data learning_rate accuracy w with
    | Returns _ w' =>
        exists accs,
          (length accs <= fuel)%nat /\
          run_epochs (length accs) data learning_rate w = Returns accs w' /\
          stops_at_last accuracy accs = true
    | Raises e w' =>
        exists accs w1,
          (length accs < fuel)%nat /\
          run_epochs (length accs) data learning_rate w = Returns accs w1 /\
          never_stops accuracy accs = true /\
          epoch data learning_rate w1 = Raises e w'
    | Timeout =>
        exists accs w1,
          length accs = fuel /\
          run_epochs fuel data learning_rate w = Returns accs w1 /\
          never_stops accuracy accs = true
    end.
Proof.
  induction fuel as [|fuel IH]; intros accuracy w Hacc.
  - cbn [SGD_loop]. rewrite Hacc. exists [], w. repeat split; reflexivity.
  - rewrite SGD_loop_unfold, Hacc. unfold mbind.
    pose proof (epoch_world data learning_rate w) as Hw.
    destruct (epoch data learning_rate w) as [a w1|e w1|] eqn:Hepoch; [| |contradiction].
    + destruct (abs (a - accuracy) <? accuracy_tol) eqn:Htol.
      * exists [a]. cbn [length]. split; [lia|]. split.
        -- rewrite run_epochs_succ, Hepoch. reflexivity.
        -- cbn [stops_at_last]. unfold stops. rewrite Htol. apply orb_true_r.
      * destruct (a <? accuracy_goal) eqn:Hgoal.
        -- assert (Hstop : stops accuracy a = false)
             by (unfold stops; rewrite Hgoal, Htol; reflexivity).
           specialize (IH a w1 Hgoal).
           destruct (SGD_loop fuel data learning_rate a w1) as [[] w'|e w'|].
           ++ destruct IH as (accs & Hlen & Hrun & Hlast).
              exists (a :: accs). cbn [length]. split; [lia|]. split.
              ** rewrite run_epochs_succ, Hepoch, Hrun. reflexivity.
              ** apply stops_at_last_cons; assumption.
           ++ destruct IH as (accs & w2 & Hlen & Hrun & Hnever & Hraise).
              exists (a :: accs), w2. cbn [length]. split; [lia|]. split.
              ** rewrite run_epochs_succ, Hepoch, Hrun. reflexivity.
              ** split; [|exact Hraise]. cbn [never_stops]. rewrite Hstop. exact Hnever.
           ++ destruct IH as (accs & w2 & Hlen & Hrun & Hnever).
              exists (a :: accs), w2. cbn [length]. split; [lia|]. split.
              ** rewrite run_epochs_succ, Hepoch, Hrun. reflexivity.
              ** cbn [never_stops]. rewrite Hstop. exact Hnever.
        -- rewrite (SGD_loop_at_goal fuel data learning_rate a Hgoal). unfold ret.
           exists [a]. cbn [length]. split; [lia|]. split.
           ++ rewrite run_epochs_succ, Hepoch. reflexivity.
           ++ cbn [stops_at_last]. unfold stops. rewrite Hgoal. reflexivity.
    + exists [], w. cbn [length]. split; [lia|]. repeat split. exact Hepoch.
Qed.

Lemma run_epochs_zero (data : list example) (learning_rate : float) (w : World)
  (accs : list float) (w' : World) :
  run_epochs 0 data learning_rate w = Returns accs w' -> accs = [] /\ w' = w.
Proof. cbn [run_epochs]. unfold ret. intros H. inversion H. split; reflexivity. Qed.

Lemma run_epochs_first (n : nat) (data : list example) (learning_rate : float) (w : World)
  (accs : list float) (w' : World) :
  run_epochs (S n) data learning_rate w = Returns accs w' ->
  exists a w1 rest,
    epoch data learning_rate w = Returns a w1 /\
    run_epochs n data learning_rate w1 = Returns rest w' /\
    accs = a :: rest.
Proof.
  rewrite run_epochs_succ.
  destruct (epoch data learning_rate w) as [a w1|e w1|]; try discriminate.
  destruct (run_epochs n data learning_rate w1) as [rest w2|e w2|] eqn:Hrest;
    try discriminate.
  intros H. inversion H. subst. exists a, w1, rest. repeat split; [exact Hrest].
Qed.



Lemma SGD_split (fuel : nat) (data : list example) (learning_rate : float) (w : World) :
  SGD fuel data learning_rate w =
  match SGD_loop fuel data learning_rate 0 w with
  | Returns _ w1 => call_evaluate data false w1
  | Raises e w1 => Raises e w1
  | Timeout => Timeout
  end.
Proof. reflexivity. Qed.

Lemma call_evaluate_run (data : list example) (accuracy : bool) (w : World) :
  call_evaluate data accuracy w =
  match evaluate (self w) data accuracy with
  | Ok v => Returns v w
  | Raise e => Raises e w
  end.
Proof. reflexivity. Qed.

(** ** What training returns *)

Lemma test_result_feeds (net : Network) (ex : example) (r : nat * nat) :
  test_result net ex = Ok r -> exists out, feedforward net (fst ex) = Ok out.
Proof.
  destruct ex as [x y]. unfold test_result. cbn [fst].
  destruct (feedforward net x) as [out|e]; [|discriminate].
  intros _. exists out. reflexivity.
Qed.

Lemma outputs_after_test_results (net : Network) (data : list example)
  (results : list (nat * nat)) :
  mapM (test_result net) data = Ok results ->
  exists outs, mapM (fun '(x, _) => feedforward net x) data = Ok outs.
Proof.
  revert results. induction data as [|ex data IH]; intros results H.
  - exists []. reflexivity.
  - cbn [mapM] in *.
    destruct (test_result net ex) as [r|e] eqn:Hr; [|discriminate].
    destruct (mapM (test_result net) data) as [rs|e]; [|discriminate].
    destruct (test_result_feeds net ex r Hr) as [out Hout].
    destruct (IH rs eq_refl) as [outs Houts].
    exists (out :: outs). destruct ex as [x y]. cbn [fst] in Hout.
    rewrite Hout. cbn [bind]. rewrite Houts. reflexivity.
Qed.

(** Where the accuracy could be measured, the outputs can be returned. *)
Lemma evaluate_modes (net : Network) (data : list example) (n : nat) :
  evaluate net data true = Ok n -> exists outs, evaluate net data false = Ok outs.
Proof.
  unfold evaluate.
  destruct (mapM (test_result net) data) as [results|e] eqn:Hres; [|discriminate].
  intros _. cbn [bind]. exact (outputs_after_test_results net data results Hres).
Qed.

Lemma evaluate_outputs (net : Network) (data : list example) (outs : list ndarray) :
  evaluate net data false = Ok outs ->
  length outs = length data /\
  forall i, (i < length data)%nat ->
    feedforward net (fst (nth i data (empty, empty))) = Ok (nth i outs empty).
Proof.
  unfold evaluate.
  destruct (mapM (test_result net) data) as [results|e]; [|discriminate].
  cbn [bind]. intros H. split.
  - exact (mapM_length _ data outs H).
  - intros i Hi.
    pose proof (mapM_nth _ data outs (empty, empty) empty H i Hi) as Hnth.
    destruct (nth i data (empty, empty)) as [x y]. exact Hnth.
Qed.

Lemma run_epochs_last_evaluated (data : list example) (learning_rate : float) :
  forall n w accs w',
    run_epochs (S n) data learning_rate w = Returns accs w' ->
    exists k, evaluate (self w') data true = Ok k.
Proof.
  induction n as [|n IH]; intros w accs w' H;
    apply run_epochs_first in H; destruct H as (a & w1 & rest & Hepoch & Hrest & _).
  - apply run_epochs_zero in Hrest. destruct Hrest as [_ ->].
    pose proof (epoch_world data learning_rate w) as Hw. rewrite Hepoch in Hw.
    apply Hw.
  - exact (IH w1 rest w' Hrest).
Qed.

(** C4.  When the training loop stops, [SGD] returns, and what it returns
    is the list of the network's outputs on the training set under the final
    parameters: as many arrays as there are examples, the i-th being
    [feedforward] of the i-th input.  The result is a list of arrays, the
    accuracy is not part of it. *)
Theorem SGD_returns_outputs (fuel : nat) (data : list example) (learning_rate : float)
  (w w' : World) :
  SGD_loop fuel data learning_rate 0 w = Returns tt w' ->
  exists outs : list ndarray,
    SGD fuel data learning_rate w = Returns outs w' /\
    length outs = length data /\
    forall i, (i < length data)%nat ->
      feedforward (self w') (fst (nth i data (empty, empty))) = Ok (nth i outs empty).
Proof.
  intros Hloop.
  pose proof (SGD_loop_runs_epochs data learning_rate fuel 0 w eq_refl) as Hrun.
  rewrite Hloop in Hrun. destruct Hrun as (accs & _ & Hrun & Hlast).
  destruct accs as [|a rest]; [discriminate Hlast|]. cbn [length] in Hrun.
  destruct (run_epochs_last_evaluated data learning_rate _ w _ w' Hrun) as [k Hk].
  destruct (evaluate_modes (self w') data k Hk) as [outs Houts].
  exists outs. split.
  - rewrite SGD_split, Hloop, call_evaluate_run, Houts. reflexivity.
  - exact (evaluate_outputs (self w') data outs Houts).
Qed.

(** ** One gradient step *)

Lemma accumulate_one_run (nabla_b nabla_w : list ndarray) (ex : example) (w : World) :
  well_shaped (self w) -> (2 <= length (sizes (self w)))%nat -> fits (self w) ex ->
  map shape nabla_b = map shape (biases (self w)) ->
  map shape nabla_w = map shape (weights (self w)) ->
  accumulate_one (nabla_b, nabla_w) ex w =
  Returns (zip_with plus nabla_b (fst (gradient_of (self w) ex)),
           zip_with plus nabla_w (snd (gradient_of (self w) ex))) w.
Proof.
  intros Hnet Hsizes Hfit Hb Hw.
  destruct (gradient_of_shapes (self w) ex Hnet Hsizes Hfit) as (Hrun & Hgb & Hgw).
  destruct ex as [x y]. cbn [fst snd] in Hrun.
  unfold accumulate_one, call_backprop, mbind, get_self, lift, ret.
  rewrite Hrun. destruct (gradient_of (self w) (x, y)) as [dnb dnw]. cbn [fst snd] in *.
  rewrite add_all_total by congruence.
  rewrite add_all_total by congruence.
  reflexivity.
Qed.

Lemma sum_nabla_b_cons (net : Network) (ex : example) (data : list example) (i : nat)
  (start : ndarray) :
  sum_nabla_b net (ex :: data) i start =
  sum_nabla_b net data i (plus start (nth i (fst (gradient_of net ex)) empty)).
Proof. reflexivity. Qed.

Lemma sum_nabla_w_cons (net : Network) (ex : example) (data : list example) (i : nat)
  (start : ndarray) :
  sum_nabla_w net (ex :: data) i start =
  sum_nabla_w net data i (plus start (nth i (snd (gradient_of net ex)) empty)).
Proof. reflexivity. Qed.

(** The inner loop: the world is untouched, and position [i] of each
    accumulator holds its start plus the gradients of the examples in turn. *)
Lemma for_each_accumulate_run (w : World) :
  well_shaped (self w) -> (2 <= length (sizes (self w)))%nat ->
  forall data nabla_b nabla_w,
    Forall (fits (self w)) data ->
    map shape nabla_b = map shape (biases (self w)) ->
    map shape nabla_w = map shape (weights (self w)) ->
    exists nabla_b' nabla_w',
      for_each accumulate_one data (nabla_b, nabla_w) w = Returns (nabla_b', nabla_w') w /\
      map shape nabla_b' = map shape (biases (self w)) /\
      map shape nabla_w' = map shape (weights (self w)) /\
      forall i, (i < length (weights (self w)))%nat ->
        nth i nabla_b' empty = sum_nabla_b (self w) data i (nth i nabla_b empty) /\
        nth i nabla_w' empty = sum_nabla_w (self w) data i (nth i nabla_w empty).
Proof.
  intros Hnet Hsizes. induction data as [|ex data IH]; intros nabla_b nabla_w Hfit Hb Hw.
  - exists nabla_b, nabla_w. repeat split; try assumption; reflexivity.
  - inversion Hfit as [|ex' data' Hex Hdata]; subst.
    destruct (gradient_of_shapes (self w) ex Hnet Hsizes Hex) as (_ & Hgb & Hgw).
    cbn [for_each]. unfold mbind at 1.
    rewrite (accumulate_one_run nabla_b nabla_w ex w Hnet Hsizes Hex Hb Hw).
    assert (Hlb : length nabla_b = length (fst (gradient_of (self w) ex)))
      by (apply map_shape_length; congruence).
    assert (Hlw : length nabla_w = length (snd (gradient_of (self w) ex)))
      by (apply map_shape_length; congruence).
    destruct (IH (zip_with plus nabla_b (fst (gradient_of (self w) ex)))
                 (zip_with plus nabla_w (snd (gradient_of (self w) ex))) Hdata)
      as (nb' & nw' & Hrun & Hb' & Hw' & Hat).
    + rewrite zip_with_shapes; [exact Hb | intros; reflexivity | exact Hlb].
    + rewrite zip_with_shapes; [exact Hw | intros; reflexivity | exact Hlw].
    + exists nb', nw'. split; [exact Hrun|]. split; [exact Hb'|]. split; [exact Hw'|].
      intros i Hi. destruct (Hat i Hi) as [Hbi Hwi].
      pose proof (map_shape_length _ _ Hb) as Hlenb.
      pose proof (map_shape_length _ _ Hw) as Hlenw.
      pose proof Hnet as (_ & Hnb & Hnw & _).
      rewrite nth_zip_with in Hbi by lia.
      rewrite nth_zip_with in Hwi by lia.
      rewrite sum_nabla_b_cons, sum_nabla_w_cons. split; assumption.
Qed.

Lemma zeros_shapes (params : list ndarray) :
  map shape (map (fun p => np.zeros (shape p)) params) = map shape params.
Proof. rewrite map_map. apply map_ext. intros p. reflexivity. Qed.

Lemma nth_zeros (params : list ndarray) (i : nat) :
  (i < length params)%nat ->
  nth i (map (fun p => np.zeros (shape p)) params) empty = np.zeros (shape (nth i params empty)).
Proof.
  intros Hi.
  exact (nth_map_in_range (fun p => np.zeros (shape p)) params i empty empty Hi).
Qed.

Lemma truediv_nonzero (x : float) (n : nat) :
  n <> 0%nat -> Py.truediv x n = Ok (x / Py.float_of_nat n).
Proof. intros H. unfold Py.truediv. apply Nat.eqb_neq in H. rewrite H. reflexivity. Qed.

Lemma length_nonempty {A : Type} (l : list A) : l <> [] -> length l <> 0%nat.
Proof. destruct l; [contradiction | discriminate]. Qed.

(** The gradient step on a well-shaped network and fitting examples, for a
    training set that is not empty. *)
Lemma gradient_step_run (data : list example) (learning_rate : float) (w : World) :
  well_shaped (self w) -> (2 <= length (sizes (self w)))%nat ->
  Forall (fits (self w)) data ->
  data <> [] ->
  exists nabla_b nabla_w,
    for_each accumulate_one data
      (map (fun bias => np.zeros (shape bias)) (biases (self w)),
       map (fun wgt => np.zeros (shape wgt)) (weights (self w))) w
    = Returns (nabla_b, nabla_w) w /\
    map shape nabla_b = map shape (biases (self w)) /\
    map shape nabla_w = map shape (weights (self w)) /\
    (forall i, (i < length (weights (self w)))%nat ->
       nth i nabla_b empty =
         sum_nabla_b (self w) data i (np.zeros (shape (nth i (biases (self w)) empty))) /\
       nth i nabla_w empty =
         sum_nabla_w (self w) data i (np.zeros (shape (nth i (weights (self w)) empty)))) /\
    gradient_step data learning_rate w =
    Returns tt
      (mk_World
         (mk_Network (num_layers (self w)) (sizes (self w))
            (zip_with (descended (learning_rate / Py.float_of_nat (length data)))
               (biases (self w)) nabla_b)
            (zip_with (descended (learning_rate / Py.float_of_nat (length data)))
               (weights (self w)) nabla_w))
         (stdout w)).
Proof.
  intros Hnet Hsizes Hfit Hn.
  destruct (for_each_accumulate_run w Hnet Hsizes data _ _ Hfit
              (zeros_shapes (biases (self w))) (zeros_shapes (weights (self w))))
    as (nabla_b & nabla_w & Hrun & Hb & Hw & Hat).
  pose proof Hnet as (_ & Hlb & Hlw & _).
  exists nabla_b, nabla_w. split; [exact Hrun|]. split; [exact Hb|]. split; [exact Hw|].
  split.
  - intros i Hi. destruct (Hat i Hi) as [Hbi Hwi].
    rewrite nth_zeros in Hbi by lia. rewrite nth_zeros in Hwi by lia.
    split; assumption.
  - unfold gradient_step. unfold mbind at 1. unfold get_self at 1. unfold mbind at 1.
    rewrite Hrun. unfold mbind, get_self, lift, set_weights, set_biases.
    rewrite (descend_total learning_rate _ (length data) (weights (self w)) nabla_w
               (truediv_nonzero _ _ (length_nonempty data Hn))) by congruence.
    cbn [self biases weights num_layers sizes stdout].
    rewrite (descend_total learning_rate _ (length data) (biases (self w)) nabla_b
               (truediv_nonzero _ _ (length_nonempty data Hn))) by congruence.
    reflexivity.
Qed.

(** C2.  One epoch's gradient step on a training set of N examples (N not
    zero, the set is not empty): every accumulator starts at zero and receives the [backprop]
    gradient of each example in turn, all computed from the parameters the
    epoch started with, which stay untouched until the last example is in;
    then each bias and each weight becomes itself minus
    [(learning_rate / N)] times its accumulated gradient, once. *)
Theorem full_batch_update (data : list example) (learning_rate : float) (w : World) :
  well_shaped (self w) -> (2 <= length (sizes (self w)))%nat ->
  Forall (fits (self w)) data ->
  data <> [] ->
  let net := self w in
  let rate := learning_rate / Py.float_of_nat (length data) in
  exists nabla_b nabla_w w',
    for_each accumulate_one data
      (map (fun bias => np.zeros (shape bias)) (biases net),
       map (fun wgt => np.zeros (shape wgt)) (weights net)) w
    = Returns (nabla_b, nabla_w) w /\
    gradient_step data learning_rate w = Returns tt w' /\
    stdout w' = stdout w /\
    sizes (self w') = sizes net /\
    length (biases (self w')) = length (biases net) /\
    length (weights (self w')) = length (weights net) /\
    forall l, (1 <= l <= length (weights net))%nat ->
      nth (l - 1) nabla_b empty =
        fold_left (fun acc ex => plus acc (nth (l - 1) (fst (gradient_of net ex)) empty))
                  data (np.zeros (shape (b net l))) /\
      nth (l - 1) nabla_w empty =
        fold_left (fun acc ex => plus acc (nth (l - 1) (snd (gradient_of net ex)) empty))
                  data (np.zeros (shape (W net l))) /\
      b (self w') l = minus (b net l) (amap (fun v => rate * v) (nth (l - 1) nabla_b empty)) /\
      W (self w') l = minus (W net l) (amap (fun v => rate * v) (nth (l - 1) nabla_w empty)).
Proof.
  intros Hnet Hsizes Hfit Hn. cbv zeta.
  destruct (gradient_step_run data learning_rate w Hnet Hsizes Hfit Hn)
    as (nabla_b & nabla_w & Hacc & Hb & Hw & Hat & Hstep).
  pose proof Hnet as (_ & Hlb & Hlw & _).
  pose proof (map_shape_length _ _ Hb) as Hlenb.
  pose proof (map_shape_length _ _ Hw) as Hlenw.
  eexists nabla_b, nabla_w, _. split; [exact Hacc|]. split; [exact Hstep|].
  cbn [self stdout sizes biases weights].
  split; [reflexivity|]. split; [reflexivity|].
  split; [apply length_zip_with; lia|]. split; [apply length_zip_with; lia|].
  intros l Hl. destruct (Hat (l - 1)%nat ltac:(lia)) as [Hbi Hwi].
  split; [exact Hbi|]. split; [exact Hwi|].
  unfold b, W. cbn [biases weights].
  rewrite !nth_zip_with by lia. split; reflexivity.
Qed.

(** ** Training keeps the shapes *)

Lemma well_shaped_same_shapes (net net' : Network) :
  well_shaped net ->
  num_layers net' = num_layers net -> sizes net' = sizes net ->
  map shape (biases net') = map shape (biases net) ->
  map shape (weights net') = map shape (weights net) ->
  well_shaped net'.
Proof.
  intros (Hn & Hlb & Hlw & Hsh) Hn' Hs' Hb Hw.
  unfold well_shaped. rewrite Hs', Hn'.
  rewrite (map_shape_length _ _ Hb), (map_shape_length _ _ Hw).
  repeat split; try assumption.
  - rewrite (map_shape_nth _ _ i Hb). apply (Hsh i H).
  - rewrite (map_shape_nth _ _ i Hw). apply (Hsh i H).
Qed.

Lemma fits_same_sizes (net net' : Network) (ex : example) :
  sizes net' = sizes net -> fits net ex -> fits net' ex.
Proof. unfold fits. intros ->. exact (fun H => H). Qed.

Lemma gradient_step_keeps_shape (data : list example) (learning_rate : float) (w : World) :
  well_shaped (self w) -> (2 <= length (sizes (self w)))%nat ->
  Forall (fits (self w)) data ->
  match gradient_step data learning_rate w with
  | Returns _ w1 | Raises _ w1 =>
      well_shaped (self w1) /\ sizes (self w1) = sizes (self w)
  | Timeout => False
  end.
Proof.
  intros Hnet Hsizes Hfit.
  destruct (Nat.eq_dec (length data) 0) as [Hn|Hn].
  - apply length_zero_iff_nil in Hn. subst data.
    (* the quotient raises at the first weight matrix; nothing is assigned *)
    destruct (for_each_accumulate_run w Hnet Hsizes [] _ _ Hfit
                (zeros_shapes (biases (self w))) (zeros_shapes (weights (self w))))
      as (nabla_b & nabla_w & Hrun & _ & Hw & _).
    unfold gradient_step. unfold mbind at 1. unfold get_self at 1. unfold mbind at 1.
    rewrite Hrun. unfold mbind at 1. unfold get_self at 1. unfold mbind at 1.
    pose proof (map_shape_length _ _ Hw) as Hlen.
    pose proof Hnet as (_ & _ & Hlw & _).
    destruct (weights (self w)) as [|p params] eqn:Hws; [simpl in Hlw; lia|].
    destruct nabla_w as [|n nabla_w]; [discriminate Hlen|].
    rewrite (descend_raises learning_rate (length (@nil example)) ZeroDivisionError).
    + unfold lift. split; [exact Hnet | reflexivity].
    + reflexivity.
  - assert (Hne : data <> []) by (intros ->; apply Hn; reflexivity).
    destruct (gradient_step_run data learning_rate w Hnet Hsizes Hfit Hne)
      as (nabla_b & nabla_w & _ & Hb & Hw & _ & Hstep).
    rewrite Hstep. cbn [self sizes]. split; [|reflexivity].
    apply (well_shaped_same_shapes (self w)); cbn [num_layers sizes biases weights];
      try reflexivity; try exact Hnet.
    + apply zip_with_shapes; [intros; reflexivity | apply map_shape_length; congruence].
    + apply zip_with_shapes; [intros; reflexivity | apply map_shape_length; congruence].
Qed.

Lemma epoch_keeps_shape (data : list example) (learning_rate : float) (w : World) :
  well_shaped (self w) -> (2 <= length (sizes (self w)))%nat ->
  Forall (fits (self w)) data ->
  match epoch data learning_rate w with
  | Returns _ w1 | Raises _ w1 =>
      well_shaped (self w1) /\ sizes (self w1) = sizes (self w)
  | Timeout => False
  end.
Proof.
  intros Hnet Hsizes Hfit. rewrite epoch_split.
  pose proof (gradient_step_keeps_shape data learning_rate w Hnet Hsizes Hfit) as Hg.
  destruct (gradient_step data learning_rate w) as [[] w1|e w1|]; try exact Hg.
  pose proof (measure_world data w1) as Hm.
  destruct (measure data w1) as [a w2|e w2|]; try exact Hm.
  - destruct Hm as [-> _]. exact Hg.
  - subst w2. exact Hg.
Qed.

Lemma run_epochs_keeps_shape (data : list example) (learning_rate : float) :
  forall n w accs w',
    well_shaped (self w) -> (2 <= length (sizes (self w)))%nat ->
    Forall (fits (self w)) data ->
    run_epochs n data learning_rate w = Returns accs w' ->
    well_shaped (self w') /\ sizes (self w') = sizes (self w).
Proof.
  induction n as [|n IH]; intros w accs w' Hnet Hsizes Hfit Hrun.
  - apply run_epochs_zero in Hrun. destruct Hrun as [_ ->]. split; [exact Hnet | reflexivity].
  - apply run_epochs_first in Hrun. destruct Hrun as (a & w1 & rest & Hepoch & Hrest & _).
    pose proof (epoch_keeps_shape data learning_rate w Hnet Hsizes Hfit) as He.
    rewrite Hepoch in He. destruct He as [Hnet1 Hs1].
    destruct (IH w1 rest w' Hnet1) as [Hnet' Hs']; try assumption.
    + rewrite Hs1. exact Hsizes.
    + apply (Forall_impl _ (fun ex H => fits_same_sizes (self w) (self w1) ex Hs1 H) Hfit).
    + split; [exact Hnet' | congruence].
Qed.

Lemma SGD_loop_keeps_shape (fuel : nat) (data : list example) (learning_rate : float)
  (w : World) :
  well_shaped (self w) -> (2 <= length (sizes (self w)))%nat ->
  Forall (fits (self w)) data ->
  match SGD_loop fuel data learning_rate 0 w with
  | Returns _ w' | Raises _ w' =>
      well_shaped (self w') /\ sizes (self w') = sizes (self w)
  | Timeout => True
  end.
Proof.
  intros Hnet Hsizes Hfit.
  pose proof (SGD_loop_runs_epochs data learning_rate fuel 0 w eq_refl) as Hloop.
  destruct (SGD_loop fuel data learning_rate 0 w) as [[] w'|e w'|]; [| |exact I].
  - destruct Hloop as (accs & _ & Hrun & _).
    exact (run_epochs_keeps_shape data learning_rate _ w accs w' Hnet Hsizes Hfit Hrun).
  - destruct Hloop as (accs & w1 & _ & Hrun & _ & Hraise).
    destruct (run_epochs_keeps_shape data learning_rate _ w accs w1 Hnet Hsizes Hfit Hrun)
      as [Hnet1 Hs1].
    pose proof (epoch_keeps_shape data learning_rate w1 Hnet1) as He.
    rewrite Hraise in He. destruct He as [Hnet' Hs'].
    + rewrite Hs1. exact Hsizes.
    + apply (Forall_impl _ (fun ex H => fits_same_sizes (self w) (self w1) ex Hs1 H) Hfit).
    + split; [exact Hnet' | congruence].
Qed.

(** C8.  For layer sizes of length k, [__init__] builds k - 1 bias vectors
    and k - 1 weight matrices, weight matrix i of shape
    (sizes[i+1], sizes[i]) and bias vector i of shape (sizes[i+1], 1).  On
    a network of at least two layers and examples that fit it, these shapes
    survive every gradient step and every call of [SGD], however the call
    ends. *)
Theorem shapes_initialised_and_preserved :
  (forall (layer_sizes : list nat) (pos : nat),
     let net := fst (init layer_sizes pos) in
     sizes net = layer_sizes /\
     num_layers net = length layer_sizes /\
     length (weights net) = (length layer_sizes - 1)%nat /\
     length (biases net) = (length layer_sizes - 1)%nat /\
     forall i, (i < length layer_sizes - 1)%nat ->
       shape (nth i (weights net) empty)
         = (nth (S i) layer_sizes 0%nat, nth i layer_sizes 0%nat) /\
       shape (nth i (biases net) empty) = (nth (S i) layer_sizes 0%nat, 1%nat)) /\
  (forall (data : list example) (learning_rate : float) (w : World),
     well_shaped (self w) -> (2 <= length (sizes (self w)))%nat ->
     Forall (fits (self w)) data ->
     match gradient_step data learning_rate w with
     | Returns _ w' | Raises _ w' =>
         well_shaped (self w') /\ sizes (self w') = sizes (self w)
     | Timeout => False
     end /\
     forall fuel,
       match SGD fuel data learning_rate w with
       | Returns _ w' | Raises _ w' =>
           well_shaped (self w') /\ sizes (self w') = sizes (self w)
       | Timeout => True
       end).
Proof.
  split.
  - intros layer_sizes pos net.
    destruct (init_attributes layer_sizes pos) as (Hn & Hs & _).
    pose proof (init_well_shaped layer_sizes pos) as (_ & Hlb & Hlw & Hsh).
    fold net in Hn, Hs, Hlb, Hlw, Hsh. rewrite Hs in Hlb, Hlw, Hsh.
    split; [exact Hs|]. split; [exact Hn|]. split; [exact Hlw|]. split; [exact Hlb|].
    intros i Hi. destruct (Hsh i Hi) as [Hb Hw]. split; assumption.
  - intros data learning_rate w Hnet Hsizes Hfit. split.
    + exact (gradient_step_keeps_shape data learning_rate w Hnet Hsizes Hfit).
    + intros fuel. rewrite SGD_split.
      pose proof (SGD_loop_keeps_shape fuel data learning_rate w Hnet Hsizes Hfit) as Hloop.
      destruct (SGD_loop fuel data learning_rate 0 w) as [[] w1|e w1|]; try exact Hloop.
      rewrite call_evaluate_run.
      destruct (evaluate (self w1) data false); exact Hloop.
Qed.

(** ** Inputs the data model excludes *)

Lemma descend_no_examples (learning_rate : float) (p n : ndarray) (params nabla : list ndarray) :
  descend learning_rate 0 (p :: params) (n :: nabla) = Raise ZeroDivisionError.
Proof.
  apply descend_raises. reflexivity.
Qed.

Lemma gradient_step_no_examples (learning_rate : float) (w : World) :
  gradient_step [] learning_rate w =
  match weights (self w), biases (self w) with
  | [], [] => Returns tt w
  | _, _ => Raises ZeroDivisionError w
  end.
Proof.
  destruct w as [[n s bs ws] out].
  unfold gradient_step, mbind, get_self, lift, set_weights, set_biases, for_each, ret.
  cbn [self biases weights num_layers sizes stdout length].
  destruct ws as [|p ws].
  - cbn [map]. unfold descend at 1. cbn [Py.zip combine mapM].
    destruct bs as [|q bs].
    + reflexivity.
    + cbn [map self biases weights num_layers sizes stdout].
      rewrite descend_no_examples. reflexivity.
  - cbn [map]. rewrite descend_no_examples. reflexivity.
Qed.

Lemma measure_no_examples (w : World) : measure [] w = Raises ZeroDivisionError w.
Proof. reflexivity. Qed.

(** C6 (amended).  An empty training set is not checked before the loop:
    the first epoch is entered and the division by the size of the training
    set raises ZeroDivisionError, at the update of the weights (at the
    accuracy quotient when the network has no parameter at all).  The
    exception escapes [SGD] and no weight or bias has been assigned. *)
Theorem empty_training_set_raises (fuel : nat) (learning_rate : float) (w : World) :
  epoch [] learning_rate w = Raises ZeroDivisionError w /\
  SGD (S fuel) [] learning_rate w = Raises ZeroDivisionError w /\
  (weights (self w) <> [] ->
   descend learning_rate (length (@nil example)) (weights (self w))
     (map (fun wgt => np.zeros (shape wgt)) (weights (self w))) = Raise ZeroDivisionError /\
   gradient_step [] learning_rate w = Raises ZeroDivisionError w).
Proof.
  assert (Hepoch : epoch [] learning_rate w = Raises ZeroDivisionError w).
  { rewrite epoch_split, gradient_step_no_examples.
    destruct (weights (self w)) as [|p ws]; [destruct (biases (self w)) as [|q bs]|];
      try reflexivity; apply measure_no_examples. }
  split; [exact Hepoch|]. split.
  - rewrite SGD_split, SGD_loop_unfold.
    replace (0 <? accuracy_goal) with true by reflexivity.
    unfold mbind. rewrite Hepoch. reflexivity.
  - intros Hws. rewrite gradient_step_no_examples.
    destruct (weights (self w)) as [|p ws]; [contradiction|].
    split; [apply descend_no_examples | reflexivity].
Qed.

Lemma forward_pass_misaligned (bias wgt : ndarray) (rest : list (ndarray * ndarray))
  (x : ndarray) (activations zs : list ndarray) :
  ncols wgt <> nrows x ->
  forward_pass ((bias, wgt) :: rest) x activations zs = Raise ValueError.
Proof.
  intros H. rewrite forward_pass_cons, (dot_not_aligned wgt x H). reflexivity.
Qed.

Lemma bdim_mismatch (m k : nat) : m <> k -> m <> 1%nat -> k <> 1%nat -> np.bdim m k = None.
Proof.
  intros H1 H2 H3. unfold np.bdim.
  apply Nat.eqb_neq in H1, H2, H3. rewrite H1, H2, H3. reflexivity.
Qed.

Lemma last_is_nth (l : list nat) : last l 0%nat = nth (length l - 1) l 0%nat.
Proof.
  induction l as [|n [|m l] IH]; try reflexivity.
  change (last (n :: m :: l) 0%nat) with (last (m :: l) 0%nat). rewrite IH.
  simpl. rewrite Nat.sub_0_r. reflexivity.
Qed.

(** C7 (amended).  On a well-shaped network of at least two layers,
    [backprop] raises numpy's ValueError when the input has a number of
    rows other than [sizes[0]] (the first matrix product is not aligned),
    and when the input fits but the target has a number of rows that
    differs from [sizes[-1]], neither of the two being 1 (the subtraction
    of the cost derivative cannot broadcast). *)
Theorem shape_mismatch_raises (net : Network) (x y : ndarray) :
  well_shaped net -> (2 <= length (sizes net))%nat ->
  (nrows x <> hd 0%nat (sizes net) -> backprop net x y = Raise ValueError) /\
  (shape x = (hd 0%nat (sizes net), 1%nat) ->
   nrows y <> last (sizes net) 0%nat -> nrows y <> 1%nat -> last (sizes net) 0%nat <> 1%nat ->
   backprop net x y = Raise ValueError).
Proof.
  intros Hnet Hsizes. pose proof Hnet as (Hnum & Hlb & Hlw & Hsh). split.
  - intros Hx. unfold backprop.
    destruct (Hsh 0%nat ltac:(lia)) as [_ Hw0].
    destruct (weights net) as [|wgt ws] eqn:Hws; [simpl in Hlw; lia|].
    destruct (biases net) as [|bias bs] eqn:Hbs; [simpl in Hlb; lia|].
    cbn [nth] in Hw0. destruct (shape_parts _ _ _ Hw0) as [_ Hc].
    unfold Py.zip. cbn [combine]. rewrite forward_pass_misaligned; [reflexivity|].
    rewrite Hc. destruct (sizes net); simpl in *; congruence.
  - intros Hx Hy Hy1 Hm1. unfold backprop.
    rewrite (forward_pass_cached net x Hnet Hx). cbn [bind].
    change (-1)%Z with (- Z.of_nat 1)%Z.
    rewrite (index_from_end _ 1 empty) by (rewrite length_map, length_seq; lia).
    rewrite length_map, length_seq. rewrite nth_activations by lia. cbn [bind].
    replace (S (length (weights net)) - 1)%nat with (length (weights net)) by lia.
    destruct (shape_parts _ _ _
                (shape_activation_at net x (length (weights net)) Hnet Hx (le_n _)))
      as [Hr _].
    assert (Hlast : nth (length (weights net)) (sizes net) 0%nat = last (sizes net) 0%nat)
      by (rewrite Hlw; symmetry; apply last_is_nth).
    rewrite Hlast in Hr.
    unfold cost_derivative, np.sub, np.broadcast.
    rewrite Hr, bdim_mismatch by congruence. reflexivity.
Qed.

(** ** The order of doubles, and argmax *)

Ltac sf_compare_cases :=
  repeat match goal with
         | |- context [Z.compare ?a ?b] =>
             destruct (Z.compare_spec a b)
         | |- context [Pos.compare_cont Eq ?a ?b] =>
             change (Pos.compare_cont Eq a b) with (Pos.compare a b);
             destruct (Pos.compare_spec a b)
         end.

Lemma SFleb_false_ltb (a c : spec_float) :
  a <> S754_nan -> c <> S754_nan -> SFleb a c = false -> SFltb c a = true.
Proof.
  unfold SFleb, SFltb, SFcompare.
  destruct a as [sa|sa| |sa ma ea], c as [sc|sc| |sc mc ec]; intros Ha Hc;
    try congruence;
    try destruct sa; try destruct sc; try (simpl; congruence).
  all: simpl; sf_compare_cases; simpl; intros; try congruence; try lia.
Qed.

Lemma SFleb_ltb_trans (a c d : spec_float) :
  SFleb a c = true -> SFltb c d = true -> SFltb a d = true.
Proof.
  unfold SFleb, SFltb, SFcompare.
  destruct a as [sa|sa| |sa ma ea], c as [sc|sc| |sc mc ec], d as [sd|sd| |sd md ed];
    try (simpl; congruence);
    try destruct sa; try destruct sc; try destruct sd; try (simpl; congruence).
  all: simpl; sf_compare_cases; simpl; intros; try congruence; try lia.
Qed.

Lemma SFleb_refl (a : spec_float) : a <> S754_nan -> SFleb a a = true.
Proof.
  unfold SFleb, SFcompare.
  destruct a as [sa|sa| |sa ma ea]; intros Ha; try congruence;
    try destruct sa; try reflexivity.
  all: simpl; sf_compare_cases; simpl; intros; try congruence; try lia.
Qed.

Lemma SFltb_leb (a c : spec_float) : SFltb a c = true -> SFleb a c = true.
Proof.
  unfold SFleb, SFltb. destruct (SFcompare a c) as [[| |]|]; congruence.
Qed.

Lemma SFltb_not_leb (a c : spec_float) : SFltb a c = true -> SFleb c a = false.
Proof.
  unfold SFleb, SFltb, SFcompare.
  destruct a as [sa|sa| |sa ma ea], c as [sc|sc| |sc mc ec];
    try (simpl; congruence);
    try destruct sa; try destruct sc; try (simpl; congruence).
  all: simpl; sf_compare_cases; simpl; intros; try congruence; try lia.
Qed.

Lemma not_nan_spec (v : float) : PrimFloat.is_nan v = false -> Prim2SF v <> S754_nan.
Proof.
  unfold PrimFloat.is_nan. rewrite FloatAxioms.eqb_spec. intros H E.
  rewrite E in H. discriminate H.
Qed.

Lemma leb_false_ltb (u v : float) :
  PrimFloat.is_nan u = false -> PrimFloat.is_nan v = false ->
  (u <=? v) = false -> (v <? u) = true.
Proof.
  intros Hu Hv. rewrite FloatAxioms.leb_spec, FloatAxioms.ltb_spec.
  apply SFleb_false_ltb; apply not_nan_spec; assumption.
Qed.

Lemma leb_ltb_trans (u v t : float) :
  (u <=? v) = true -> (v <? t) = true -> (u <? t) = true.
Proof.
  rewrite FloatAxioms.leb_spec, !FloatAxioms.ltb_spec. apply SFleb_ltb_trans.
Qed.

Lemma leb_refl (v : float) : PrimFloat.is_nan v = false -> (v <=? v) = true.
Proof.
  intros Hv. rewrite FloatAxioms.leb_spec. apply SFleb_refl, not_nan_spec, Hv.
Qed.

Lemma ltb_leb (u v : float) : (u <? v) = true -> (u <=? v) = true.
Proof. rewrite FloatAxioms.leb_spec, FloatAxioms.ltb_spec. apply SFltb_leb. Qed.

Lemma ltb_not_leb (u v : float) : (u <? v) = true -> (v <=? u) = false.
Proof. rewrite FloatAxioms.leb_spec, FloatAxioms.ltb_spec. apply SFltb_not_leb. Qed.

(** The scan of [argmax]: [pre] has been read, [mp] is its maximum and
    [ind] the lowest index where it is taken. *)
Lemma argmax_from_lowest (rest : list float) :
  forall (pre : list float) (mp : float) (ind : nat),
    nan_free (pre ++ rest) ->
    (ind < length pre)%nat -> nth ind pre 0 = mp ->
    (forall j, (j < length pre)%nat -> (nth j pre 0 <=? mp) = true) ->
    (forall j, (j < ind)%nat -> (nth j pre 0 <? mp) = true) ->
    lowest_index_of_max (pre ++ rest) (np.argmax_from mp ind (length pre) rest).
Proof.
  induction rest as [|v rest IH]; intros pre mp ind Hnan Hind Hmp Hle Hlt.
  - cbn [np.argmax_from]. rewrite app_nil_r. unfold lowest_index_of_max.
    rewrite Hmp. repeat split; assumption.
  - assert (Hv : PrimFloat.is_nan v = false).
    { unfold nan_free in Hnan. rewrite Forall_forall in Hnan. apply Hnan.
      apply in_or_app. right. left. reflexivity. }
    assert (Hmpn : PrimFloat.is_nan mp = false).
    { unfold nan_free in Hnan. rewrite Forall_forall in Hnan. apply Hnan.
      apply in_or_app. left. rewrite <- Hmp. apply nth_In. exact Hind. }
    assert (Hsnoc : pre ++ v :: rest = (pre ++ [v]) ++ rest)
      by (rewrite <- app_assoc; reflexivity).
    assert (Hlen : length (pre ++ [v]) = S (length pre))
      by (rewrite length_app; simpl; lia).
    cbn [np.argmax_from]. rewrite Hsnoc in *. rewrite <- Hlen.
    destruct (v <=? mp) eqn:Hcmp.
    + apply IH; try assumption.
      * lia.
      * rewrite app_nth1 by exact Hind. exact Hmp.
      * intros j Hj. destruct (Nat.eq_dec j (length pre)) as [->|Hne].
        -- rewrite nth_middle. exact Hcmp.
        -- rewrite app_nth1 by lia. apply Hle. lia.
      * intros j Hj. rewrite app_nth1 by lia. apply Hlt. exact Hj.
    + rewrite Hv. rewrite Hlen.
      pose proof (leb_false_ltb v mp Hv Hmpn Hcmp) as Hgt.
      rewrite <- Hlen. apply IH; try assumption.
      * lia.
      * apply nth_middle.
      * intros j Hj. destruct (Nat.eq_dec j (length pre)) as [->|Hne].
        -- rewrite nth_middle. apply leb_refl. exact Hv.
        -- rewrite app_nth1 by lia. apply ltb_leb.
           apply (leb_ltb_trans _ mp); [apply Hle; lia | exact Hgt].
      * intros j Hj. rewrite app_nth1 by lia.
        apply (leb_ltb_trans _ mp); [apply Hle; lia | exact Hgt].
Qed.

(** On a non-empty array without NaN, [argmax] is the lowest index of the
    maximum. *)
Lemma argmax_list_lowest (l : list float) :
  l <> [] -> nan_free l ->
  exists i, np.argmax_list l = Ok i /\ lowest_index_of_max l i.
Proof.
  destruct l as [|v rest]; intros Hne Hnan; [contradiction|].
  assert (Hv : PrimFloat.is_nan v = false) by (inversion Hnan; assumption).
  unfold np.argmax_list. rewrite Hv. eexists. split; [reflexivity|].
  apply (argmax_from_lowest rest [v] v 0).
  - exact Hnan.
  - simpl. lia.
  - reflexivity.
  - intros j Hj. simpl in Hj. replace j with 0%nat by lia. apply leb_refl. exact Hv.
  - intros j Hj. lia.
Qed.

(** The lowest index of the maximum is determined by the list. *)
Lemma lowest_index_of_max_unique (l : list float) (i j : nat) :
  lowest_index_of_max l i -> lowest_index_of_max l j -> i = j.
Proof.
  intros (Hi & Hile & Hilt) (Hj & Hjle & Hjlt).
  destruct (Nat.lt_trichotomy i j) as [H|[H|H]]; [|exact H|].
  - pose proof (ltb_not_leb _ _ (Hjlt i H)) as Hcontra.
    rewrite (Hile j Hj) in Hcontra. discriminate Hcontra.
  - pose proof (ltb_not_leb _ _ (Hilt j H)) as Hcontra.
    rewrite (Hjle i Hi) in Hcontra. discriminate Hcontra.
Qed.

Lemma count_matches_filter (test_results : list (nat * nat)) :
  count_matches test_results =
  length (filter (fun '(y_pred, y) => (y_pred =? y)%nat) test_results).
Proof.
  induction test_results as [|[p q] rs IH]; [reflexivity|].
  change (count_matches ((p, q) :: rs))
    with ((if (p =? q)%nat then 1 else 0) + count_matches rs)%nat.
  rewrite IH. cbn [filter]. destruct (p =? q)%nat; reflexivity.
Qed.

Lemma test_result_scored (net : Network) (ex : example) :
  (exists out, feedforward net (fst ex) = Ok out /\ has_maximum out /\ has_maximum (snd ex)) ->
  exists r, test_result net ex = Ok r /\ scored net ex r.
Proof.
  intros (out & Hout & [Hne Hnan] & [Hyne Hynan]). destruct ex as [x y]. cbn [fst snd] in *.
  destruct (argmax_list_lowest (np.ravel out) Hne Hnan) as (p & Hp & Hplow).
  destruct (argmax_list_lowest (np.ravel y) Hyne Hynan) as (q & Hq & Hqlow).
  exists (p, q). split.
  - unfold test_result. rewrite Hout. cbn [bind]. unfold np.argmax. rewrite Hp, Hq.
    reflexivity.
  - exists out. cbn [fst snd]. split; [exact Hout | split; [exact Hplow | exact Hqlow]].
Qed.

Lemma test_results_scored (net : Network) (data : list example) :
  (forall ex, In ex data ->
     exists out, feedforward net (fst ex) = Ok out /\ has_maximum out /\ has_maximum (snd ex)) ->
  exists test_results,
    mapM (test_result net) data = Ok test_results /\
    Forall2 (scored net) data test_results.
Proof.
  induction data as [|ex data IH]; intros H.
  - exists []. split; [reflexivity | constructor].
  - destruct (test_result_scored net ex (H ex (or_introl eq_refl))) as (r & Hr & Hscored).
    destruct (IH (fun ex' Hin => H ex' (or_intror Hin))) as (rs & Hrs & Hall).
    exists (r :: rs). split.
    + cbn [mapM]. rewrite Hr. cbn [bind]. rewrite Hrs. reflexivity.
    + constructor; assumption.
Qed.

(** C9.  On a data set whose outputs and targets each have a maximum,
    [evaluate] in accuracy mode returns the number of examples whose
    predicted class equals the labelled class, the class of an array being
    the lowest index at which it takes its maximum; the call leaves the
    network, and the rest of the world, as it found them. *)
Theorem evaluate_counts_matches (data : list example) (w : World) :
  (forall ex, In ex data ->
     exists out,
       feedforward (self w) (fst ex) = Ok out /\ has_maximum out /\ has_maximum (snd ex)) ->
  exists test_results,
    Forall2 (scored (self w)) data test_results /\
    evaluate (self w) data true
      = Ok (length (filter (fun '(y_pred, y) => (y_pred =? y)%nat) test_results)) /\
    call_evaluate data true w
      = Returns (length (filter (fun '(y_pred, y) => (y_pred =? y)%nat) test_results)) w.
Proof.
  intros H.
  destruct (test_results_scored (self w) data H) as (test_results & Hres & Hall).
  exists test_results. split; [exact Hall|].
  assert (Hev : evaluate (self w) data true
                = Ok (length (filter (fun '(y_pred, y) => (y_pred =? y)%nat) test_results))).
  { unfold evaluate. rewrite Hres. cbn [bind]. rewrite count_matches_filter. reflexivity. }
  split; [exact Hev|].
  rewrite call_evaluate_run, Hev. reflexivity.
Qed.

(** ** The forward pass, in [feedforward] and in [backprop] *)

Lemma last_cons_nonempty {A : Type} (a a' : A) (l : list A) (d : A) :
  last (a :: a' :: l) d = last (a' :: l) d.
Proof. reflexivity. Qed.

Lemma last_default_irrelevant {A : Type} (a : A) (l : list A) (d d' : A) :
  last (a :: l) d = last (a :: l) d'.
Proof.
  revert a. induction l as [|a' l IH]; intros a; [reflexivity|].
  rewrite !last_cons_nonempty. apply IH.
Qed.

Lemma forward_pass_collects (layers : list (ndarray * ndarray)) :
  forall (a : ndarray) (pre zs0 : list ndarray),
    match forward_pass layers a (pre ++ [a]) zs0 with
    | Ok (activations, zs) =>
        exists zs_new,
          zs = zs0 ++ zs_new /\
          activations = pre ++ a :: map sigmoid zs_new /\
          length zs_new = length layers /\
          feed layers a = Ok (last (a :: map sigmoid zs_new) a)
    | Raise e => feed layers a = Raise e
    end.
Proof.
  induction layers as [|[bias wgt] rest IH]; intros a pre zs0.
  - cbn [forward_pass feed]. exists []. rewrite app_nil_r. repeat split; reflexivity.
  - rewrite forward_pass_cons. cbn [feed].
    destruct (np.dot wgt a) as [wa|e]; cbn [bind]; [|reflexivity].
    destruct (np.add wa bias) as [z|e]; cbn [bind]; [|reflexivity].
    specialize (IH (sigmoid z) (pre ++ [a]) (zs0 ++ [z])).
    destruct (forward_pass rest (sigmoid z) ((pre ++ [a]) ++ [sigmoid z]) (zs0 ++ [z]))
      as [[activations zs]|e]; [|exact IH].
    destruct IH as (zs_new & Hzs & Hacts & Hlen & Hfeed).
    exists (z :: zs_new). split; [|split; [|split]].
    + rewrite Hzs, <- app_assoc. reflexivity.
    + rewrite Hacts, <- app_assoc. reflexivity.
    + cbn [length]. rewrite Hlen. reflexivity.
    + rewrite Hfeed. f_equal. cbn [map]. rewrite last_cons_nonempty.
      apply last_default_irrelevant.
Qed.

(** X1.  The feedforward loop inside [backprop] is [feedforward] with a
    memory: it raises exactly when [feedforward] raises, and the same
    exception; when it ends there is one z per layer transition, the list of
    activations is the input followed by the sigmoid of every z, and the last
    activation is what [feedforward] returns. *)
Theorem forward_pass_is_feedforward (net : Network) (x : ndarray) :
  match forward_pass (Py.zip (biases net) (weights net)) x [x] [] with
  | Ok (activations, zs) =>
      activations = x :: map sigmoid zs /\
      length zs = length (Py.zip (biases net) (weights net)) /\
      feedforward net x = Ok (last activations x)
  | Raise e => feedforward net x = Raise e
  end.
Proof.
  pose proof (forward_pass_collects (Py.zip (biases net) (weights net)) x [] []) as H.
  change ([] ++ [x]) with [x] in H.
  destruct (forward_pass (Py.zip (biases net) (weights net)) x [x] []) as [[activations zs]|e];
    [|exact H].
  destruct H as (zs_new & Hzs & Hacts & Hlen & Hfeed).
  cbn [app] in Hzs, Hacts. subst zs activations.
  split; [reflexivity|]. split; [exact Hlen | exact Hfeed].
Qed.

(** ** Shapes of what [feedforward] returns *)

Lemma bdim_one_r (c : nat) : np.bdim c 1 = Some c.
Proof.
  unfold np.bdim. destruct (c =? 1)%nat; reflexivity.
Qed.

Lemma feed_from (net : Network) (c : nat) :
  well_shaped net ->
  forall k m a,
    (m + k = length (weights net))%nat ->
    shape a = (nth m (sizes net) 0%nat, c) ->
    exists out,
      feed (skipn m (Py.zip (biases net) (weights net))) a = Ok out /\
      shape out = (nth (length (weights net)) (sizes net) 0%nat, c).
Proof.
  intros Hnet. pose proof Hnet as (_ & Hlb & Hlw & Hsh).
  induction k as [|k IH]; intros m a Hm Ha.
  - replace m with (length (weights net)) in * by lia.
    rewrite skipn_all2 by (unfold Py.zip; rewrite length_combine; lia).
    exists a. split; [reflexivity | exact Ha].
  - rewrite (skipn_nth_cons _ m (empty, empty))
      by (unfold Py.zip; rewrite length_combine; lia).
    unfold Py.zip at 1. rewrite combine_nth by lia. cbn [feed].
    destruct (Hsh m ltac:(lia)) as [Hb HW].
    destruct (shape_parts _ _ _ HW) as [HWr HWc].
    destruct (shape_parts _ _ _ Hb) as [Hbr Hbc].
    destruct (shape_parts _ _ _ Ha) as [Har Hac].
    rewrite dot_aligned by congruence. cbn [bind].
    unfold np.add, np.broadcast, matmul. cbn [nrows ncols tabulate].
    rewrite HWr, Hbr, Hac, Hbc, bdim_same, bdim_one_r. cbn [bind].
    apply (IH (S m)); [lia | reflexivity].
Qed.

(** X2.  On a well-shaped network [feedforward] accepts a batch: an input of
    [sizes[0]] rows and any number c of columns gives an output of
    [sizes[-1]] rows and c columns (the bias column is broadcast over the
    columns).  A single column is the case c = 1. *)
Theorem feedforward_output_shape (net : Network) (x : ndarray) (c : nat) :
  well_shaped net -> shape x = (hd 0%nat (sizes net), c) ->
  exists out, feedforward net x = Ok out /\ shape out = (last (sizes net) 0%nat, c).
Proof.
  intros Hnet Hx. pose proof Hnet as (_ & _ & Hlw & _).
  destruct (feed_from net c Hnet (length (weights net)) 0 x eq_refl) as (out & Hrun & Hout).
  - rewrite Hx. destruct (sizes net); reflexivity.
  - exists out. split; [exact Hrun|].
    rewrite Hout, last_is_nth, Hlw. reflexivity.
Qed.

(** X4.  On a well-shaped network of at least two layers, an input whose
    number of rows is not [sizes[0]] makes [feedforward] raise numpy's
    ValueError at the first matrix product, and [evaluate] raises it too,
    in either mode, when such an example comes first. *)
Theorem feedforward_misaligned_input (net : Network) (x : ndarray) :
  well_shaped net -> (2 <= length (sizes net))%nat ->
  nrows x <> hd 0%nat (sizes net) ->
  feedforward net x = Raise ValueError /\
  forall (y : ndarray) (rest : list example) (accuracy : bool),
    evaluate net ((x, y) :: rest) accuracy = Raise ValueError.
Proof.
  intros Hnet Hsizes Hx. pose proof Hnet as (_ & Hlb & Hlw & Hsh).
  assert (Hff : feedforward net x = Raise ValueError).
  { unfold feedforward.
    destruct (Hsh 0%nat ltac:(lia)) as [_ Hw0].
    destruct (weights net) as [|wgt ws]; [simpl in Hlw; lia|].
    destruct (biases net) as [|bias bs]; [simpl in Hlb; lia|].
    cbn [nth] in Hw0. destruct (shape_parts _ _ _ Hw0) as [_ Hc].
    unfold Py.zip. cbn [combine feed]. rewrite dot_not_aligned; [reflexivity|].
    rewrite Hc. destruct (sizes net); simpl in *; congruence. }
  split; [exact Hff|].
  intros y rest accuracy. unfold evaluate. cbn [mapM test_result]. rewrite Hff.
  reflexivity.
Qed.

(** ** How [evaluate] fails, and what it counts *)

Lemma mapM_app_raise {A B : Type} (f : A -> result B) (good : list A) (bad : A)
  (rest : list A) (e : exn) :
  (forall a, In a good -> exists v, f a = Ok v) ->
  f bad = Raise e ->
  mapM f (good ++ bad :: rest) = Raise e.
Proof.
  intros Hgood Hbad. induction good as [|a good IH]; cbn [app mapM].
  - rewrite Hbad. reflexivity.
  - destruct (Hgood a (or_introl eq_refl)) as [v Hv]. rewrite Hv. cbn [bind].
    rewrite IH; [reflexivity|]. intros a' Ha'. apply Hgood. right. exact Ha'.
Qed.

(** X3.  [evaluate] scores the examples in order and the first one that
    fails decides the call: its exception is raised, in accuracy mode and in
    raw mode alike, whatever comes after it. *)
Theorem evaluate_raises_first_failure (net : Network) (good : list example) (bad : example)
  (rest : list example) (e : exn) (accuracy : bool) :
  (forall ex, In ex good -> exists r, test_result net ex = Ok r) ->
  test_result net bad = Raise e ->
  evaluate net (good ++ bad :: rest) accuracy = Raise e.
Proof.
  intros Hgood Hbad. unfold evaluate.
  rewrite (mapM_app_raise (test_result net) good bad rest e Hgood Hbad).
  reflexivity.
Qed.

(** X5.  Both modes of [evaluate] compute the predicted and the labelled
    class of every example first, so they fail together: raw mode raises
    exactly the exceptions accuracy mode raises, and returns outputs exactly
    when accuracy mode returns a count.  An example whose target has no
    entry makes raw mode fail although no target is needed for the outputs. *)
Theorem evaluate_modes_fail_together (net : Network) (data : list example) :
  (forall e, evaluate net data true = Raise e <-> evaluate net data false = Raise e) /\
  ((exists n, evaluate net data true = Ok n) <->
   (exists outs, evaluate net data false = Ok outs)).
Proof.
  assert (Hraise : forall e,
            evaluate net data true = Raise e <-> evaluate net data false = Raise e).
  { intros e. unfold evaluate.
    destruct (mapM (test_result net) data) as [results|e0] eqn:Hres; cbn [bind].
    - destruct (outputs_after_test_results net data results Hres) as [outs Houts].
      rewrite Houts. split; discriminate.
    - split; intros H; inversion H; reflexivity. }
  split; [exact Hraise|]. split.
  - intros [n Hn]. exact (evaluate_modes net data n Hn).
  - intros [outs Houts].
    assert (Hcases : (exists n, evaluate net data true = Ok n) \/
                     (exists e, evaluate net data true = Raise e)).
    { destruct (evaluate net data true) as [n|e];
        [left; exists n | right; exists e]; reflexivity. }
    destruct Hcases as [Hok|[e He]]; [exact Hok|].
    apply Hraise in He. rewrite He in Houts. discriminate Houts.
Qed.

Lemma count_matches_bound (test_results : list (nat * nat)) :
  (count_matches test_results <= length test_results)%nat.
Proof.
  rewrite count_matches_filter. apply filter_length_le.
Qed.

(** X6.  The count [evaluate] returns in accuracy mode never exceeds the
    number of examples, and it is that number only if every example is
    classified as labelled. *)
Theorem evaluate_count_bounded (net : Network) (data : list example) (n : nat) :
  evaluate net data true = Ok n ->
  (n <= length data)%nat /\
  (n = length data ->
   forall ex, In ex data -> exists k, test_result net ex = Ok (k, k)).
Proof.
  unfold evaluate.
  destruct (mapM (test_result net) data) as [results|e] eqn:Hres; cbn [bind];
    [|discriminate].
  intros H. inversion H as [Hn]. clear H.
  pose proof (mapM_length _ _ _ Hres) as Hlen.
  split; [rewrite <- Hlen; apply count_matches_bound|].
  intros Hall. rewrite <- Hlen in Hall. clear Hn Hlen.
  revert results Hres Hall. induction data as [|ex0 data IH]; intros results Hres Hall ex Hin.
  - destruct Hin.
  - cbn [mapM] in Hres.
    destruct (test_result net ex0) as [[p q]|e] eqn:Hr; [|discriminate].
    destruct (mapM (test_result net) data) as [rs|e] eqn:Hrs; [|discriminate].
    cbn [bind] in Hres. inversion Hres; subst results. clear Hres.
    change (count_matches ((p, q) :: rs))
      with ((if (p =? q)%nat then 1 else 0) + count_matches rs)%nat in Hall.
    cbn [length] in Hall. pose proof (count_matches_bound rs) as Hb.
    destruct (p =? q)%nat eqn:Hpq; [|lia].
    apply Nat.eqb_eq in Hpq. subst q.
    destruct Hin as [<-|Hin].
    + exists p. exact Hr.
    + apply (IH rs eq_refl); [lia | exact Hin].
Qed.

(** ** A network without layer transitions *)

Lemma backprop_no_layers (net : Network) (x y : ndarray) :
  Py.zip (biases net) (weights net) = [] ->
  backprop net x y =
  match np.sub x y with
  | Ok _ => Raise IndexError
  | Raise e => Raise e
  end.
Proof.
  intros Hzip. unfold backprop. rewrite Hzip. cbn [forward_pass bind].
  change (Py.index [x] (-1)) with (Ok x). cbn [bind]. unfold cost_derivative.
  destruct (np.sub x y) as [cd|e]; reflexivity.
Qed.

(** X7.  [Network(sizes)] with fewer than two sizes has no bias and no
    weight and draws nothing from the generator.  On it [feedforward]
    returns its input as it is, and [backprop] never returns: it raises
    ValueError when input and target cannot be subtracted, and IndexError
    (from [zs[-1]] on the empty list) otherwise. *)
Theorem network_without_layers (layer_sizes : list nat) (pos : nat) (x y : ndarray) :
  (length layer_sizes <= 1)%nat ->
  let net := fst (init layer_sizes pos) in
  biases net = [] /\ weights net = [] /\ snd (init layer_sizes pos) = pos /\
  feedforward net x = Ok x /\
  backprop net x y =
  match np.sub x y with
  | Ok _ => Raise IndexError
  | Raise e => Raise e
  end.
Proof.
  intros Hlen net.
  assert (Hinit : init layer_sizes pos = (mk_Network (length layer_sizes) layer_sizes [] [], pos)).
  { destruct layer_sizes as [|n [|m l]]; [reflexivity | reflexivity | simpl in Hlen; lia]. }
  unfold net. rewrite Hinit. cbn [fst snd biases weights].
  split; [reflexivity|]. split; [reflexivity|]. split; [reflexivity|].
  split; [reflexivity|].
  apply backprop_no_layers. reflexivity.
Qed.

(** ** The derivative of the sigmoid *)

(** X8.  [sigmoid_prime] never raises: for every array it returns an array
    of the same shape whose entries are s * (1 - s), s being the sigmoid of
    the entry.  Where the sigmoid saturates (its exponential has overflowed
    to infinity, or underflowed to zero) the derivative is exactly 0. *)
Theorem sigmoid_prime_entries (z : ndarray) (i j : nat) :
  (i < nrows z)%nat -> (j < ncols z)%nat ->
  exists sp,
    sigmoid_prime z = Ok sp /\
    shape sp = shape z /\
    item sp i j = item (sigmoid z) i j * (1 - item (sigmoid z) i j) /\
    (libm_exp (- item z i j) = infinity -> item sp i j = 0) /\
    (libm_exp (- item z i j) = 0 -> item sp i j = 0).
Proof.
  intros Hi Hj. exists (sigmoid_prime_entrywise z).
  split; [apply sigmoid_prime_total|]. split; [reflexivity|].
  assert (Hitem : item (sigmoid_prime_entrywise z) i j
                  = sigmoid_scalar (item z i j) * (1 - sigmoid_scalar (item z i j))).
  { unfold sigmoid_prime_entrywise. apply item_tabulate; assumption. }
  rewrite Hitem, (item_sigmoid z i j Hi Hj). unfold sigmoid_scalar.
  split; [reflexivity|]. split; intros E; rewrite E; reflexivity.
Qed.

(** ** What an epoch prints, and when training ends *)

Lemma evaluate_count_le (net : Network) (data : list example) (n : nat) :
  evaluate net data true = Ok n -> (n <= length data)%nat.
Proof.
  unfold evaluate.
  destruct (mapM (test_result net) data) as [results|e] eqn:Hres; cbn [bind];
    [|discriminate].
  intros H. inversion H. rewrite <- (mapM_length _ _ _ Hres). apply count_matches_bound.
Qed.

Lemma measure_returns (data : list example) (w : World) (a : float) (w' : World) :
  measure data w = Returns a w' ->
  w' = mk_World (self w) (stdout w ++ [a]) /\
  data <> [] /\
  exists k, (k <= length data)%nat /\
    evaluate (self w) data true = Ok k /\
    a = Py.float_of_nat k / Py.float_of_nat (length data).
Proof.
  unfold measure, call_evaluate, mbind, get_self, lift, print, ret.
  destruct (evaluate (self w) data true) as [k|e] eqn:Hev; [|discriminate].
  unfold Py.truediv. destruct (length data =? 0)%nat eqn:Hn; [discriminate|].
  intros H. inversion H. subst. split; [reflexivity|]. split.
  - intros ->. discriminate Hn.
  - exists k. split; [exact (evaluate_count_le _ _ _ Hev)|]. split; reflexivity.
Qed.

(** X9.  An epoch that completes prints one line, its accuracy, and that
    accuracy is k/N: N is the number of training examples, which is not
    zero, and k, at most N, is the count [evaluate] gives for the parameters
    the epoch has just written. *)
Theorem epoch_prints_accuracy (data : list example) (learning_rate : float)
  (w : World) (a : float) (w' : World) :
  epoch data learning_rate w = Returns a w' ->
  stdout w' = stdout w ++ [a] /\
  data <> [] /\
  exists k, (k <= length data)%nat /\
    evaluate (self w') data true = Ok k /\
    a = Py.float_of_nat k / Py.float_of_nat (length data).
Proof.
  rewrite epoch_split.
  pose proof (gradient_step_world data learning_rate w) as Hg.
  destruct (gradient_step data learning_rate w) as [[] w1|e w1|]; try discriminate.
  destruct Hg as (Hout & _ & _). intros Hm.
  destruct (measure_returns data w1 a w' Hm) as (-> & Hne & k & Hk & Hev & Ha).
  cbn [stdout self]. rewrite Hout. split; [reflexivity|]. split; [exact Hne|].
  exists k. repeat split; assumption.
Qed.

Lemma run_epochs_stdout (data : list example) (learning_rate : float) :
  forall n w accs w',
    run_epochs n data learning_rate w = Returns accs w' ->
    length accs = n /\
    stdout w' = stdout w ++ accs /\
    num_layers (self w') = num_layers (self w) /\
    sizes (self w') = sizes (self w).
Proof.
  induction n as [|n IH]; intros w accs w' Hrun.
  - apply run_epochs_zero in Hrun. destruct Hrun as [-> ->].
    rewrite app_nil_r. repeat split; reflexivity.
  - apply run_epochs_first in Hrun. destruct Hrun as (a & w1 & rest & Hepoch & Hrest & ->).
    pose proof (epoch_world data learning_rate w) as Hw. rewrite Hepoch in Hw.
    destruct Hw as (Hout & Hn & Hs & _).
    destruct (IH w1 rest w' Hrest) as (Hlen & Hout' & Hn' & Hs').
    cbn [length]. rewrite Hout', Hout, <- app_assoc.
    repeat split; try congruence.
Qed.

(** X10.  [SGD] prints one line per completed epoch and nothing else, and it
    never changes [num_layers] or [sizes].  In every case there is a list
    [accs] such that running [length accs] epochs in a row from the starting
    state succeeds with the accuracies [accs], and the lines printed by the
    call are exactly [accs], in this order.  When [SGD] returns, the state it
    leaves is the one after these epochs, there is at least one of them and
    the last is the first whose accuracy passes the exit test.  When it
    raises, the exception comes from the epoch attempted after them, which
    printed nothing, and none of them passed the exit test: the final call of
    [evaluate] never raises. *)
Theorem SGD_prints_one_line_per_epoch (fuel : nat) (data : list example)
  (learning_rate : float) (w : World) :
  match SGD fuel data learning_rate w with
  | Returns _ w' =>
      exists accs,
        run_epochs (length accs) data learning_rate w = Returns accs w' /\
        stdout w' = stdout w ++ accs /\
        (1 <= length accs <= fuel)%nat /\
        stops_at_last 0 accs = true /\
        num_layers (self w') = num_layers (self w) /\
        sizes (self w') = sizes (self w)
  | Raises e w' =>
      exists accs w1,
        run_epochs (length accs) data learning_rate w = Returns accs w1 /\
        epoch data learning_rate w1 = Raises e w' /\
        stdout w' = stdout w ++ accs /\
        (length accs < fuel)%nat /\
        never_stops 0 accs = true /\
        num_layers (self w') = num_layers (self w) /\
        sizes (self w') = sizes (self w)
  | Timeout =>
      exists accs w1,
        run_epochs fuel data learning_rate w = Returns accs w1 /\
        length accs = fuel /\
        stdout w1 = stdout w ++ accs /\
        never_stops 0 accs = true
  end.
Proof.
  rewrite SGD_split.
  pose proof (SGD_loop_runs_epochs data learning_rate fuel 0 w eq_refl) as Hloop.
  destruct (SGD_loop fuel data learning_rate 0 w) as [[] w1|e w1|].
  - destruct Hloop as (accs & Hfuel & Hrun & Hlast).
    destruct (run_epochs_stdout data learning_rate _ w accs w1 Hrun)
      as (_ & Hout & Hn & Hs).
    assert (Hone : (1 <= length accs)%nat)
      by (destruct accs; [discriminate Hlast | simpl; lia]).
    assert (Hev : exists outs, evaluate (self w1) data false = Ok outs).
    { destruct (length accs) as [|n] eqn:Hlen; [lia|].
      destruct (run_epochs_last_evaluated data learning_rate n w accs w1 Hrun) as [k Hk].
      exact (evaluate_modes (self w1) data k Hk). }
    destruct Hev as [outs Hev].
    rewrite call_evaluate_run, Hev. exists accs.
    repeat split; try assumption; lia.
  - destruct Hloop as (accs & w2 & Hfuel & Hrun & Hnever & Hraise).
    destruct (run_epochs_stdout data learning_rate _ w accs w2 Hrun)
      as (_ & Hout & Hn & Hs).
    pose proof (epoch_world data learning_rate w2) as Hw. rewrite Hraise in Hw.
    destruct Hw as (Hout' & Hn' & Hs').
    exists accs, w2. repeat split; try assumption; congruence.
  - destruct Hloop as (accs & w2 & Hlen & Hrun & Hnever).
    destruct (run_epochs_stdout data learning_rate _ w accs w2 Hrun)
      as (_ & Hout & _).
    exists accs, w2. repeat split; assumption.
Qed.

(** X11.  Training ends after its first epoch when the accuracy of that
    epoch is not below 0.8, and also when it is below 0.00001, the accuracy
    before the first epoch being taken as 0: a network that classifies no
    training example right after one update is returned as it is. *)
Theorem training_ends_after_first_epoch (fuel : nat) (data : list example)
  (learning_rate : float) (w : World) (a : float) (w1 : World) :
  epoch data learning_rate w = Returns a w1 ->
  (a <? accuracy_goal) = false \/ (abs (a - 0) <? accuracy_tol) = true ->
  SGD_loop (S fuel) data learning_rate 0 w = Returns tt w1 /\
  SGD (S fuel) data learning_rate w = call_evaluate data false w1 /\
  stdout w1 = stdout w ++ [a].
Proof.
  intros Hepoch Hstop.
  assert (Hloop : SGD_loop (S fuel) data learning_rate 0 w = Returns tt w1).
  { rewrite SGD_loop_unfold. replace (0 <? accuracy_goal) with true by reflexivity.
    unfold mbind. rewrite Hepoch.
    destruct (abs (a - 0) <? accuracy_tol) eqn:Htol; [reflexivity|].
    destruct Hstop as [Hgoal|Hcontra]; [|discriminate Hcontra].
    rewrite (SGD_loop_at_goal fuel data learning_rate a Hgoal). reflexivity. }
  split; [exact Hloop|]. split.
  - rewrite SGD_split, Hloop. reflexivity.
  - pose proof (epoch_world data learning_rate w) as Hw. rewrite Hepoch in Hw.
    apply Hw.
Qed.

(** ** An exception while the gradients are accumulated *)

Lemma for_each_app {A S : Type} (body : S -> A -> M S) (l1 l2 : list A) (acc : S) (w : World) :
  for_each body (l1 ++ l2) acc w =
  match for_each body l1 acc w with
  | Returns acc' w' => for_each body l2 acc' w'
  | Raises e w' => Raises e w'
  | Timeout => Timeout
  end.
Proof.
  revert acc w. induction l1 as [|a l1 IH]; intros acc w; [reflexivity|].
  cbn [app for_each]. unfold mbind.
  destruct (body acc a w) as [acc' w'|e w'|]; [apply IH | reflexivity | reflexivity].
Qed.

(** X12.  When [backprop] raises on an example, the examples before it
    fitting the network, the exception leaves [SGD] at once and the call has
    changed nothing: no weight, no bias, no printed line.  The gradients
    accumulated so far are dropped with the epoch. *)
Theorem exception_in_accumulation_changes_nothing (fuel : nat) (pre post : list example)
  (x y : ndarray) (learning_rate : float) (w : World) (e : exn) :
  well_shaped (self w) -> (2 <= length (sizes (self w)))%nat ->
  Forall (fits (self w)) pre ->
  backprop (self w) x y = Raise e ->
  gradient_step (pre ++ (x, y) :: post) learning_rate w = Raises e w /\
  SGD (S fuel) (pre ++ (x, y) :: post) learning_rate w = Raises e w.
Proof.
  intros Hnet Hsizes Hfit Hraise.
  assert (Hstep : gradient_step (pre ++ (x, y) :: post) learning_rate w = Raises e w).
  { destruct (for_each_accumulate_run w Hnet Hsizes pre _ _ Hfit
                (zeros_shapes (biases (self w))) (zeros_shapes (weights (self w))))
      as (nabla_b & nabla_w & Hrun & _).
    unfold gradient_step. unfold mbind at 1. unfold get_self at 1. unfold mbind at 1.
    rewrite for_each_app, Hrun. cbn [for_each]. unfold mbind at 1.
    unfold accumulate_one, call_backprop. unfold mbind at 1. unfold mbind at 1.
    unfold get_self, lift. rewrite Hraise. reflexivity. }
  split; [exact Hstep|].
  rewrite SGD_split, SGD_loop_unfold.
  replace (0 <? accuracy_goal) with true by reflexivity.
  unfold mbind. rewrite epoch_split, Hstep. reflexivity.
Qed.

(** ** The draws of [__init__] *)

Lemma draw_all_randn {A : Type} (f : A -> nat -> ndarray * nat) (r c : A -> nat)
  (l : list A) :
  (forall a p, f a p = np.randn gauss (r a) (c a) p) ->
  forall pos,
    snd (draw_all f l pos) = (pos + list_sum (map (fun a => (r a * c a)%nat) l))%nat /\
    forall k d, (k < length l)%nat ->
      nth k (fst (draw_all f l pos)) empty
      = fst (np.randn gauss (r (nth k l d)) (c (nth k l d))
               (pos + list_sum (map (fun a => (r a * c a)%nat) (firstn k l)))%nat).
Proof.
  intros Hf. induction l as [|a l IH]; intros pos.
  - split; [simpl; lia | intros k d Hk; simpl in Hk; lia].
  - cbn [draw_all]. rewrite Hf.
    assert (Hsnd : snd (np.randn gauss (r a) (c a) pos) = (pos + r a * c a)%nat)
      by reflexivity.
    destruct (np.randn gauss (r a) (c a) pos) as [arr pos1] eqn:Hdraw.
    cbn [snd] in Hsnd. subst pos1.
    specialize (IH (pos + r a * c a)%nat).
    destruct (draw_all f l (pos + r a * c a)%nat) as [arrs pos2].
    cbn [fst snd] in *. destruct IH as [Hpos Hnth]. split.
    + rewrite Hpos. cbn [map]. unfold list_sum. cbn [fold_right]. lia.
    + intros [|k] d Hk.
      * cbn [nth firstn map]. unfold list_sum. cbn [fold_right].
        rewrite Nat.add_0_r, Hdraw. reflexivity.
      * cbn [nth firstn map]. rewrite (Hnth k d) by (simpl in Hk; lia).
        do 2 f_equal. unfold list_sum. cbn [fold_right]. lia.
Qed.

(** X13.  [__init__] draws one number per parameter, the biases first and
    then the weights, each array filled row by row: with the generator at
    draw number [pos], entry r of bias vector i is the draw that follows the
    bias vectors before it, entry (r, c) of weight matrix i the one that
    follows all biases and the weight matrices before it, and the generator
    is left after the last weight. *)
Theorem init_draws_one_number_per_parameter (layer_sizes : list nat) (pos : nat) :
  let net := fst (init layer_sizes pos) in
  let n_biases := list_sum (tl layer_sizes) in
  let shapes := Py.zip (removelast layer_sizes) (tl layer_sizes) in
  snd (init layer_sizes pos)
    = (pos + n_biases + list_sum (map (fun '(x, y) => (y * x)%nat) shapes))%nat /\
  forall i, (i < length layer_sizes - 1)%nat ->
    (forall r, (r < nth (S i) layer_sizes 0)%nat ->
       item (nth i (biases net) empty) r 0
       = gauss (pos + list_sum (firstn i (tl layer_sizes)) + r)%nat) /\
    (forall r c, (r < nth (S i) layer_sizes 0)%nat -> (c < nth i layer_sizes 0)%nat ->
       item (nth i (weights net) empty) r c
       = gauss (pos + n_biases
                + list_sum (map (fun '(x, y) => (y * x)%nat) (firstn i shapes))
                + r * nth i layer_sizes 0 + c)%nat).
Proof.
  intros net n_biases shapes.
  assert (Hone : forall l : list nat, map (fun a => (a * 1)%nat) l = l).
  { intros l. rewrite <- (map_id l) at 2. apply map_ext. intros a. lia. }
  assert (Hcost : forall l : list (nat * nat),
            map (fun p => (snd p * fst p)%nat) l = map (fun '(x, y) => (y * x)%nat) l).
  { intros l. apply map_ext. intros [x y]. reflexivity. }
  destruct (draw_all_randn (fun y => np.randn gauss y 1) (fun y : nat => y) (fun _ => 1%nat)
              (tl layer_sizes) (fun a p => eq_refl) pos) as [Hbpos Hbnth].
  rewrite Hone in Hbpos. fold n_biases in Hbpos.
  assert (Hwf : forall (a : nat * nat) (p : nat),
            (fun '(x, y) => np.randn gauss y x) a p = np.randn gauss (snd a) (fst a) p).
  { intros [x y] p. reflexivity. }
  destruct (draw_all_randn (fun '(x, y) => np.randn gauss y x)
              (fun p : nat * nat => snd p) (fun p => fst p) shapes Hwf (pos + n_biases)%nat)
    as [Hwpos Hwnth].
  rewrite Hcost in Hwpos.
  assert (Hnet : net = mk_Network (length layer_sizes) layer_sizes
                         (fst (draw_all (fun y => np.randn gauss y 1) (tl layer_sizes) pos))
                         (fst (draw_all (fun '(x, y) => np.randn gauss y x) shapes
                                 (pos + n_biases)%nat)) /\
                 snd (init layer_sizes pos)
                 = snd (draw_all (fun '(x, y) => np.randn gauss y x) shapes
                          (pos + n_biases)%nat)).
  { unfold net, init. fold shapes.
    destruct (draw_all (fun y => np.randn gauss y 1) (tl layer_sizes) pos) as [bs pos1].
    cbn [snd] in Hbpos. subst pos1. cbn [fst].
    destruct (draw_all (fun '(x, y) => np.randn gauss y x) shapes (pos + n_biases)%nat)
      as [ws pos2].
    split; reflexivity. }
  destruct Hnet as [Hnet Hsnd]. rewrite Hsnd, Hnet. cbn [biases weights].
  split; [exact Hwpos|].
  intros i Hi.
  assert (Hlt : (i < length (tl layer_sizes))%nat) by (rewrite length_tl; exact Hi).
  assert (Hls : (i < length shapes)%nat).
  { unfold shapes, Py.zip. rewrite length_combine, length_removelast, length_tl. lia. }
  split.
  - intros r Hr. rewrite (Hbnth i 0%nat Hlt), Hone. unfold np.randn. cbn [fst].
    rewrite nth_tl. rewrite item_tabulate by (try exact Hr; lia).
    f_equal. lia.
  - intros r c Hr Hc. rewrite (Hwnth i (0%nat, 0%nat) Hls), Hcost.
    unfold np.randn. cbn [fst].
    assert (Hshape : nth i shapes (0%nat, 0%nat)
                     = (nth i layer_sizes 0%nat, nth (S i) layer_sizes 0%nat)).
    { unfold shapes, Py.zip.
      rewrite combine_nth by (rewrite length_removelast, length_tl; reflexivity).
      rewrite nth_tl, nth_removelast by exact Hi. reflexivity. }
    rewrite Hshape. cbn [fst snd].
    rewrite item_tabulate by assumption. reflexivity.
Qed.

(** ** The first epoch of a training call *)

Lemma combine_nth_in_range {A B : Type} (l : list A) (l' : list B) (i : nat) (d : A) (d' : B) :
  (i < length (combine l l'))%nat ->
  nth i (combine l l') (d, d') = (nth i l d, nth i l' d').
Proof.
  revert l' i. induction l as [|a l IH]; intros [|a' l'] [|i] Hi; simpl in Hi; try lia.
  - reflexivity.
  - cbn [combine nth]. apply IH. lia.
Qed.

(** What the comprehension of the update leaves in each position. *)
Lemma descend_entries (learning_rate : float) (n_examples : nat)
  (params nabla out : list ndarray) :
  n_examples <> 0%nat ->
  descend learning_rate n_examples params nabla = Ok out ->
  length out = length (combine params nabla) /\
  forall i, (i < length out)%nat ->
    np.sub (nth i params empty)
           (amap (fun v => learning_rate / Py.float_of_nat n_examples * v) (nth i nabla empty))
    = Ok (nth i out empty).
Proof.
  intros Hn Hrun. unfold descend in Hrun.
  pose proof (mapM_length _ _ _ Hrun) as Hlen. unfold Py.zip in Hlen.
  split; [exact Hlen|].
  intros i Hi.
  pose proof (mapM_nth _ _ _ (empty, empty) empty Hrun i) as Hnth.
  unfold Py.zip in Hnth. rewrite combine_nth_in_range in Hnth by lia.
  rewrite (truediv_nonzero learning_rate n_examples Hn) in Hnth. cbn [bind] in Hnth.
  apply Hnth. lia.
Qed.

Lemma gradient_step_returns (data : list example) (learning_rate : float) (w w' : World) :
  gradient_step data learning_rate w = Returns tt w' ->
  exists nabla_b nabla_w bs ws,
    for_each accumulate_one data
      (map (fun bias => np.zeros (shape bias)) (biases (self w)),
       map (fun wgt => np.zeros (shape wgt)) (weights (self w))) w
    = Returns (nabla_b, nabla_w) w /\
    descend learning_rate (length data) (weights (self w)) nabla_w = Ok ws /\
    descend learning_rate (length data) (biases (self w)) nabla_b = Ok bs /\
    w' = mk_World (mk_Network (num_layers (self w)) (sizes (self w)) bs ws) (stdout w).
Proof.
  unfold gradient_step. unfold mbind at 1. unfold get_self at 1. unfold mbind at 1.
  pose proof (for_each_accumulate_world data
                (map (fun bias => np.zeros (shape bias)) (biases (self w)),
                 map (fun wgt => np.zeros (shape wgt)) (weights (self w))) w) as Hacc.
  destruct (for_each accumulate_one data _ w) as [[nabla_b nabla_w] w1|e w1|] eqn:Hrun;
    try discriminate.
  subst w1. unfold mbind, get_self, lift, set_weights, set_biases.
  destruct (descend learning_rate (length data) (weights (self w)) nabla_w) as [ws|e] eqn:Hws;
    try discriminate.
  cbn [self biases weights num_layers sizes stdout].
  destruct (descend learning_rate (length data) (biases (self w)) nabla_b) as [bs|e] eqn:Hbs;
    try discriminate.
  intros H. inversion H.
  exists nabla_b, nabla_w, bs, ws. repeat split; first [assumption | reflexivity].
Qed.

Lemma accumulate_one_sum (nabla nabla' : list ndarray * list ndarray) (ex : example)
  (w w' : World) :
  accumulate_one nabla ex w = Returns nabla' w' ->
  w' = w /\ sum_gradients (self w) nabla ex = Ok nabla'.
Proof.
  destruct nabla as [nabla_b nabla_w], ex as [x y].
  unfold accumulate_one, call_backprop, mbind, get_self, lift, ret, sum_gradients, add_all,
    Py.zip.
  cbn [fst snd].
  destruct (backprop (self w) x y) as [[dnb dnw]|e]; cbn [bind]; [|discriminate].
  destruct (mapM (fun '(nb, dnb0) => np.add nb dnb0) (combine nabla_b dnb)) as [nb|e];
    cbn [bind]; [|discriminate].
  destruct (mapM (fun '(nb0, dnb0) => np.add nb0 dnb0) (combine nabla_w dnw)) as [nw|e];
    cbn [bind]; [|discriminate].
  intros H. inversion H. split; reflexivity.
Qed.

(** The inner loop is the sum of the gradients of all the examples, every
    one of them computed under the parameters the loop started with. *)
Lemma for_each_accumulate_sum (data : list example) :
  forall nabla nabla' w w',
    for_each accumulate_one data nabla w = Returns nabla' w' ->
    foldM (sum_gradients (self w)) data nabla = Ok nabla'.
Proof.
  induction data as [|ex data IH]; intros nabla nabla' w w' Hrun.
  - cbn [for_each] in Hrun. unfold ret in Hrun. inversion Hrun. reflexivity.
  - cbn [for_each] in Hrun. unfold mbind in Hrun.
    destruct (accumulate_one nabla ex w) as [nabla1 w1|e w1|] eqn:Hone; try discriminate.
    destruct (accumulate_one_sum nabla nabla1 ex w w1 Hone) as [-> Hsum].
    cbn [foldM]. rewrite Hsum. cbn [bind]. exact (IH nabla1 nabla' w w' Hrun).
Qed.

(** C10.  Training never returns without a first full epoch.  Whenever
    [SGD] returns, the training set is not empty and, starting from the
    parameters the call was given: the accumulators, zeroed, have received
    the [backprop] gradient of every training example; every weight and
    every bias has then been replaced by itself minus [learning_rate/N]
    times its accumulator; the accuracy was measured only on these updated
    parameters; and the stopping rule is applied to the accuracies from that
    epoch on.  Nothing is asked of the initial parameters, which may already
    classify the whole training set. *)
Theorem at_least_one_epoch (fuel : nat) (data : list example) (learning_rate : float)
  (w : World) (out : list ndarray) (w' : World) :
  SGD fuel data learning_rate w = Returns out w' ->
  exists nabla_b nabla_w bs ws accuracy1 rest,
    let net := self w in
    let rate := learning_rate / Py.float_of_nat (length data) in
    let w_updated := mk_World (mk_Network (num_layers net) (sizes net) bs ws) (stdout w) in
    let w_measured := mk_World (self w_updated) (stdout w ++ [accuracy1]) in
    data <> [] /\
    foldM (sum_gradients net) data
      (map (fun bias => np.zeros (shape bias)) (biases net),
       map (fun wgt => np.zeros (shape wgt)) (weights net)) = Ok (nabla_b, nabla_w) /\
    length ws = length (combine (weights net) nabla_w) /\
    (forall i, (i < length ws)%nat ->
       np.sub (nth i (weights net) empty) (amap (fun v => rate * v) (nth i nabla_w empty))
       = Ok (nth i ws empty)) /\
    length bs = length (combine (biases net) nabla_b) /\
    (forall i, (i < length bs)%nat ->
       np.sub (nth i (biases net) empty) (amap (fun v => rate * v) (nth i nabla_b empty))
       = Ok (nth i bs empty)) /\
    gradient_step data learning_rate w = Returns tt w_updated /\
    (exists k, evaluate (self w_updated) data true = Ok k /\
               accuracy1 = Py.float_of_nat k / Py.float_of_nat (length data)) /\
    measure data w_updated = Returns accuracy1 w_measured /\
    run_epochs (length rest) data learning_rate w_measured = Returns rest w' /\
    stops_at_last 0 (accuracy1 :: rest) = true.
Proof.
  rewrite SGD_split.
  pose proof (SGD_loop_runs_epochs data learning_rate fuel 0 w eq_refl) as Hloop.
  destruct (SGD_loop fuel data learning_rate 0 w) as [[] w2|e w2|]; try discriminate.
  destruct Hloop as (accs & _ & Hrun & Hlast).
  rewrite call_evaluate_run.
  destruct (evaluate (self w2) data false) as [outs|e]; try discriminate.
  intros H. inversion H. subst out w'. clear H.
  destruct accs as [|accuracy1 rest]; [discriminate Hlast|].
  cbn [length] in Hrun. apply run_epochs_first in Hrun.
  destruct Hrun as (a & w1 & rest' & Hepoch & Hrest & Heq).
  inversion Heq. subst a rest'. clear Heq.
  rewrite epoch_split in Hepoch.
  destruct (gradient_step data learning_rate w) as [[] w_updated|e w_updated|] eqn:Hstep;
    try discriminate.
  destruct (gradient_step_returns data learning_rate w w_updated Hstep)
    as (nabla_b & nabla_w & bs & ws & Hacc & Hws & Hbs & ->).
  destruct (measure_returns data _ accuracy1 w1 Hepoch) as (-> & Hne & k & _ & Hev & Ha).
  pose proof (length_nonempty data Hne) as Hn.
  destruct (descend_entries learning_rate (length data) _ _ ws Hn Hws) as [Hlws Hwat].
  destruct (descend_entries learning_rate (length data) _ _ bs Hn Hbs) as [Hlbs Hbat].
  exists nabla_b, nabla_w, bs, ws, accuracy1, rest. cbv zeta.
  cbn [self stdout] in *.
  split; [exact Hne|].
  split; [exact (for_each_accumulate_sum data _ _ w w Hacc)|].
  split; [exact Hlws|]. split; [exact Hwat|].
  split; [exact Hlbs|]. split; [exact Hbat|].
  split; [reflexivity|].
  split; [exists k; split; assumption|].
  split; [exact Hepoch|].
  split; [exact Hrest | exact Hlast].
Qed.

End Network_py.

(** ** Concrete runs *)

Lemma demo_net_well_shaped : well_shaped demo_net.
Proof. apply well_shaped_of_lists; reflexivity. Qed.

Lemma demo_data_fits : Forall (fits demo_net) demo_data.
Proof. repeat constructor. Qed.

Lemma backprop_equations_witness :
  well_shaped demo_net /\
  fits demo_net (column [1; 0], column [1; 0]) /\
  exists nabla_b nabla_w,
    backprop exp_ref demo_net (column [1; 0]) (column [1; 0]) = Ok (nabla_b, nabla_w) /\
    length nabla_b = 2%nat /\ length nabla_w = 2%nat /\
    map shape nabla_b = [(3, 1); (2, 1)]%nat /\
    map shape nabla_w = [(3, 2); (2, 3)]%nat.
Proof.
  split; [exact demo_net_well_shaped|].
  split; [split; reflexivity|].
  destruct (backprop_equations exp_ref demo_net (column [1; 0]) (column [1; 0]))
    as (nabla_b & nabla_w & Hrun & Hlb & Hlw & _).
  - exact demo_net_well_shaped.
  - vm_compute. lia.
  - split; reflexivity.
  - exists nabla_b, nabla_w. split; [exact Hrun|]. split; [exact Hlb|]. split; [exact Hlw|].
    vm_compute in Hrun. inversion Hrun. split; reflexivity.
Defined.

Lemma full_batch_update_witness :
  demo_data <> [] /\
  exists nabla_b nabla_w w',
    for_each (accumulate_one exp_ref) demo_data
      (map (fun bias => np.zeros (shape bias)) (biases demo_net),
       map (fun wgt => np.zeros (shape wgt)) (weights demo_net)) demo_world
    = Returns (nabla_b, nabla_w) demo_world /\
    gradient_step exp_ref demo_data 0.5 demo_world = Returns tt w' /\
    W (self w') 1 = minus (W demo_net 1) (amap (fun v => 0.5 / 2 * v) (nth 0 nabla_w empty)).
Proof.
  split; [discriminate|].
  destruct (full_batch_update exp_ref demo_data 0.5 demo_world)
    as (nabla_b & nabla_w & w' & Hacc & Hstep & _ & _ & _ & _ & Hat).
  - exact demo_net_well_shaped.
  - vm_compute. lia.
  - exact demo_data_fits.
  - discriminate.
  - exists nabla_b, nabla_w, w'. split; [exact Hacc|]. split; [exact Hstep|].
    destruct (Hat 1%nat) as (_ & _ & _ & HW); [simpl; lia|]. exact HW.
Defined.


Lemma SGD_returns_outputs_witness :
  exists outs : list ndarray,
    SGD exp_ref 5 demo_data 0.5 demo_world
    = Returns outs (world_after (SGD_loop exp_ref 5 demo_data 0.5 0 demo_world) demo_world) /\
    length outs = 2%nat.
Proof.
  destruct (SGD_returns_outputs exp_ref 5 demo_data 0.5 demo_world
              (world_after (SGD_loop exp_ref 5 demo_data 0.5 0 demo_world) demo_world))
    as (outs & Hrun & Hlen & _).
  - vm_compute. reflexivity.
  - exists outs. split; [exact Hrun | exact Hlen].
Defined.

Lemma sigmoid_direct_form_saturates_witness :
  item (sigmoid exp_ref (column [-1000; 1000])) 0 0 = 0 /\
  item (sigmoid exp_ref (column [-1000; 1000])) 1 0 = 1.
Proof.
  split.
  - apply (sigmoid_direct_form_saturates exp_ref (column [-1000; 1000]) 0 0).
    + vm_compute. lia.
    + vm_compute. lia.
    + reflexivity.
  - apply (sigmoid_direct_form_saturates exp_ref (column [-1000; 1000]) 1 0).
    + vm_compute. lia.
    + vm_compute. lia.
    + reflexivity.
Defined.

(** C5 as stated fails.  The exponential of 1000 exceeds every double, so a
    faithful [exp] returns infinity there; [sigmoid(-1000.0)] is then
    [1.0/(1.0 + inf) = 0.0], which is not strictly inside (0, 1). *)
Lemma sigmoid_not_strictly_inside_unit_interval :
  ~ (forall libm_exp : float -> float,
       libm_exp 1000 = infinity ->
       forall v : float, PrimFloat.is_finite v = true ->
         (0 <? sigmoid_scalar libm_exp v) = true /\ (sigmoid_scalar libm_exp v <? 1) = true).
Proof.
  intros H.
  destruct (H exp_ref eq_refl (-1000) eq_refl) as [Hpos _].
  vm_compute in Hpos. discriminate Hpos.
Qed.

(** C6 as stated fails.  With an empty training set nothing is rejected
    ahead of the loop: the gradient step of the first epoch is reached, the
    quotient [learning_rate/len(training_data)] of the weight update divides
    by zero, and that ZeroDivisionError is what the caller of [SGD] sees. *)
Lemma empty_training_set_reaches_the_division :
  descend 0.5 (length (@nil example)) (weights demo_net)
    (map (fun wgt => np.zeros (shape wgt)) (weights demo_net)) = Raise ZeroDivisionError /\
  gradient_step exp_ref [] 0.5 demo_world = Raises ZeroDivisionError demo_world /\
  SGD exp_ref 1 [] 0.5 demo_world = Raises ZeroDivisionError demo_world.
Proof. repeat split; vm_compute; reflexivity. Qed.

Lemma shape_mismatch_raises_witness :
  backprop exp_ref demo_net (column [1; 2; 3]) (column [1; 0]) = Raise ValueError /\
  backprop exp_ref demo_net (column [1; 0]) (column [1; 0; 0]) = Raise ValueError.
Proof.
  assert (Hsizes : (2 <= length (sizes demo_net))%nat) by (vm_compute; lia).
  split.
  - apply (proj1 (shape_mismatch_raises exp_ref demo_net (column [1; 2; 3]) (column [1; 0])
                    demo_net_well_shaped Hsizes)).
    vm_compute. lia.
  - apply (proj2 (shape_mismatch_raises exp_ref demo_net (column [1; 0]) (column [1; 0; 0])
                    demo_net_well_shaped Hsizes)).
    + reflexivity.
    + vm_compute. lia.
    + vm_compute. lia.
    + vm_compute. lia.
Defined.

(** C7 as stated fails.  A target of a single entry disagrees with the
    two outputs of the network, yet numpy broadcasts it against the output
    in [cost_derivative] and [backprop] returns gradients. *)
Lemma single_entry_target_is_broadcast :
  ~ (forall (libm_exp : float -> float) (net : Network) (x y : ndarray),
       well_shaped net -> (2 <= length (sizes net))%nat ->
       shape x = (hd 0%nat (sizes net), 1%nat) ->
       shape y <> (last (sizes net) 0%nat, 1%nat) ->
       exists e, backprop libm_exp net x y = Raise e).
Proof.
  intros H.
  destruct (H exp_ref demo_net (column [1; 0]) (column [1])) as [e He].
  - exact demo_net_well_shaped.
  - vm_compute. lia.
  - reflexivity.
  - simpl. discriminate.
  - vm_compute in He. discriminate He.
Qed.

(** C8 as stated fails.  The shapes are not preserved by every update: the
    code never compares an example with the layer sizes.  On the network of
    sizes [2, 1] as initialised, a target of two entries is broadcast against
    the single output in [cost_derivative]; the gradients come out with two
    rows, nothing is raised, and the update leaves a bias of shape (2, 1) and
    a weight matrix of shape (2, 2) where (1, 1) and (1, 2) are required.
    [SGD] then measures the accuracy, prints it and returns. *)
Lemma two_entry_target_changes_shapes :
  fst (init demo_gauss [2; 1]%nat 0) = two_to_one_net /\
  well_shaped two_to_one_net /\
  map shape (biases two_to_one_net) = [(1, 1)]%nat /\
  map shape (weights two_to_one_net) = [(1, 2)]%nat /\
  (exists w1,
     gradient_step exp_ref two_entry_targets 0.5 two_to_one_world = Returns tt w1 /\
     sizes (self w1) = [2; 1]%nat /\
     map shape (biases (self w1)) = [(2, 1)]%nat /\
     map shape (weights (self w1)) = [(2, 2)]%nat /\
     ~ well_shaped (self w1)) /\
  (exists outs w2,
     SGD exp_ref 3 two_entry_targets 0.5 two_to_one_world = Returns outs w2 /\
     stdout w2 = [1] /\
     map shape (biases (self w2)) = [(2, 1)]%nat /\
     map shape (weights (self w2)) = [(2, 2)]%nat /\
     ~ well_shaped (self w2)) /\
  ~ (forall (libm_exp : float -> float) (data : list example) (learning_rate : float)
            (w : World),
       well_shaped (self w) -> (2 <= length (sizes (self w)))%nat ->
       match gradient_step libm_exp data learning_rate w with
       | Returns _ w' | Raises _ w' => well_shaped (self w')
       | Timeout => True
       end).
Proof.
  assert (Hshaped : well_shaped two_to_one_net)
    by (apply well_shaped_of_lists; reflexivity).
  assert (Hbroken : ~ well_shaped
                      (self (world_after
                               (gradient_step exp_ref two_entry_targets 0.5 two_to_one_world)
                               two_to_one_world))).
  { intros (_ & _ & _ & H). destruct (H 0%nat) as [Hb _]; [vm_compute; lia|].
    vm_compute in Hb. discriminate Hb. }
  split; [vm_compute; reflexivity|].
  split; [exact Hshaped|].
  split; [reflexivity|]. split; [reflexivity|].
  split; [|split].
  - exists (world_after (gradient_step exp_ref two_entry_targets 0.5 two_to_one_world)
              two_to_one_world).
    split; [vm_compute; reflexivity|].
    split; [vm_compute; reflexivity|].
    split; [vm_compute; reflexivity|].
    split; [vm_compute; reflexivity | exact Hbroken].
  - exists (returned (SGD exp_ref 3 two_entry_targets 0.5 two_to_one_world) []),
           (world_after (SGD exp_ref 3 two_entry_targets 0.5 two_to_one_world)
              two_to_one_world).
    split; [vm_compute; reflexivity|].
    split; [vm_compute; reflexivity|].
    split; [vm_compute; reflexivity|].
    split; [vm_compute; reflexivity|].
    intros (_ & _ & _ & H). destruct (H 0%nat) as [Hb _]; [vm_compute; lia|].
    vm_compute in Hb. discriminate Hb.
  - intros H.
    pose proof (H exp_ref two_entry_targets 0.5 two_to_one_world Hshaped
                  ltac:(vm_compute; lia)) as Hstep.
    assert (Hrun : gradient_step exp_ref two_entry_targets 0.5 two_to_one_world
                   = Returns tt (world_after
                                   (gradient_step exp_ref two_entry_targets 0.5
                                      two_to_one_world) two_to_one_world))
      by (vm_compute; reflexivity).
    rewrite Hrun in Hstep. exact (Hbroken Hstep).
Qed.

Lemma shapes_initialised_and_preserved_witness :
  map shape (weights (fst (init demo_gauss [2; 3; 2]%nat 0))) = [(3, 2); (2, 3)]%nat /\
  well_shaped (self (world_after (SGD exp_ref 5 demo_data 0.5 demo_world) demo_world)).
Proof.
  split; [reflexivity|].
  pose proof (proj2 (proj2 (shapes_initialised_and_preserved exp_ref demo_gauss)
                      demo_data 0.5 demo_world demo_net_well_shaped
                      ltac:(simpl; lia) demo_data_fits) 5%nat) as H.
  assert (Hrun : SGD exp_ref 5 demo_data 0.5 demo_world
                 = Returns (returned (SGD exp_ref 5 demo_data 0.5 demo_world) [])
                     (world_after (SGD exp_ref 5 demo_data 0.5 demo_world) demo_world))
    by (vm_compute; reflexivity).
  rewrite Hrun in H. destruct H as [H _]. rewrite Hrun. exact H.
Defined.

Lemma evaluate_counts_matches_witness :
  exists test_results,
    Forall2 (scored exp_ref demo_net) demo_data test_results /\
    evaluate exp_ref demo_net demo_data true
    = Ok (length (filter (fun '(y_pred, y) => (y_pred =? y)%nat) test_results)).
Proof.
  destruct (evaluate_counts_matches exp_ref demo_data demo_world)
    as (test_results & Hall & Hev & _).
  - intros ex [<-|[<-|[]]].
    + exists (value_of (feedforward exp_ref demo_net (column [1; 0])) empty).
      split; [vm_compute; reflexivity|].
      split; (split; [vm_compute; discriminate | vm_compute; repeat constructor]).
    + exists (value_of (feedforward exp_ref demo_net (column [0; 1])) empty).
      split; [vm_compute; reflexivity|].
      split; (split; [vm_compute; discriminate | vm_compute; repeat constructor]).
  - exists test_results. split; [exact Hall | exact Hev].
Defined.

Lemma at_least_one_epoch_witness :
  evaluate exp_ref demo_net demo_data true = Ok 2%nat /\
  exists nabla_b nabla_w bs ws accuracy1,
    foldM (sum_gradients exp_ref demo_net) demo_data
      (map (fun bias => np.zeros (shape bias)) (biases demo_net),
       map (fun wgt => np.zeros (shape wgt)) (weights demo_net)) = Ok (nabla_b, nabla_w) /\
    np.sub (nth 0 (weights demo_net) empty)
           (amap (fun v => 0.5 / Py.float_of_nat 2 * v) (nth 0 nabla_w empty))
    = Ok (nth 0 ws empty) /\
    gradient_step exp_ref demo_data 0.5 demo_world
    = Returns tt (mk_World (mk_Network 3 [2; 3; 2]%nat bs ws) []) /\
    measure exp_ref demo_data (mk_World (mk_Network 3 [2; 3; 2]%nat bs ws) [])
    = Returns accuracy1 (mk_World (mk_Network 3 [2; 3; 2]%nat bs ws) [accuracy1]).
Proof.
  split; [vm_compute; reflexivity|].
  destruct (at_least_one_epoch exp_ref 5 demo_data 0.5 demo_world
              (returned (SGD exp_ref 5 demo_data 0.5 demo_world) [])
              (world_after (SGD exp_ref 5 demo_data 0.5 demo_world) demo_world))
    as (nabla_b & nabla_w & bs & ws & accuracy1 & rest & H).
  - vm_compute. reflexivity.
  - cbv zeta in H.
    destruct H as (_ & Hsum & Hlws & Hwat & _ & _ & Hstep & _ & Hmeasure & _).
    exists nabla_b, nabla_w, bs, ws, accuracy1.
    split; [exact Hsum|]. split.
    + apply Hwat. rewrite Hlws.
      assert (Hlen : length nabla_w = 2%nat).
      { vm_compute in Hsum. inversion Hsum. reflexivity. }
      rewrite length_combine, Hlen. vm_compute. lia.
    + split; [exact Hstep | exact Hmeasure].
Defined.

(** ** Further concrete runs *)

Lemma feedforward_output_shape_witness :
  exists out,
    feedforward exp_ref demo_net (matrix [[1; 0; 1]; [0; 1; 1]]) = Ok out /\
    shape out = (2, 3)%nat.
Proof.
  apply (feedforward_output_shape exp_ref demo_net (matrix [[1; 0; 1]; [0; 1; 1]]) 3).
  - exact demo_net_well_shaped.
  - reflexivity.
Defined.

Lemma evaluate_raises_first_failure_witness :
  evaluate exp_ref demo_net
    ([(column [1; 0], column [1; 0])] ++ (column [0; 1], column []) :: []) false
  = Raise ValueError.
Proof.
  apply (evaluate_raises_first_failure exp_ref demo_net
           [(column [1; 0], column [1; 0])] (column [0; 1], column []) [] ValueError false).
  - intros ex [<-|[]].
    exists (value_of (test_result exp_ref demo_net (column [1; 0], column [1; 0])) (0, 0)%nat).
    vm_compute. reflexivity.
  - vm_compute. reflexivity.
Defined.

Lemma feedforward_misaligned_input_witness :
  feedforward exp_ref demo_net (column [1; 2; 3]) = Raise ValueError.
Proof.
  apply (feedforward_misaligned_input exp_ref demo_net (column [1; 2; 3])).
  - exact demo_net_well_shaped.
  - vm_compute. lia.
  - vm_compute. lia.
Defined.

Lemma evaluate_count_bounded_witness :
  evaluate exp_ref demo_net demo_data true = Ok 2%nat /\ (2 <= length demo_data)%nat.
Proof.
  assert (Hev : evaluate exp_ref demo_net demo_data true = Ok 2%nat)
    by (vm_compute; reflexivity).
  split; [exact Hev|].
  apply (evaluate_count_bounded exp_ref demo_net demo_data 2 Hev).
Defined.

Lemma network_without_layers_witness :
  feedforward exp_ref (fst (init demo_gauss [5]%nat 0)) (column [1; 2]) = Ok (column [1; 2]) /\
  backprop exp_ref (fst (init demo_gauss [5]%nat 0)) (column [1; 2]) (column [1; 2])
  = Raise IndexError.
Proof.
  destruct (network_without_layers exp_ref demo_gauss [5]%nat 0 (column [1; 2]) (column [1; 2]))
    as (_ & _ & _ & Hff & Hbp).
  - vm_compute. lia.
  - split; [exact Hff | exact Hbp].
Defined.

Lemma sigmoid_prime_entries_witness :
  exists sp,
    sigmoid_prime exp_ref (column [-1000; 0]) = Ok sp /\
    shape sp = (2, 1)%nat /\
    item sp 0 0 = 0.
Proof.
  destruct (sigmoid_prime_entries exp_ref (column [-1000; 0]) 0 0)
    as (sp & Hrun & Hshape & _ & Hinf & _).
  - vm_compute. lia.
  - vm_compute. lia.
  - exists sp. split; [exact Hrun|]. split; [exact Hshape|].
    apply Hinf. reflexivity.
Defined.

Lemma epoch_prints_accuracy_witness :
  stdout (world_after (epoch exp_ref demo_data 0.5 demo_world) demo_world) = [1] /\
  exists k, (k <= 2)%nat /\
    returned (epoch exp_ref demo_data 0.5 demo_world) 0
    = Py.float_of_nat k / Py.float_of_nat 2.
Proof.
  destruct (epoch_prints_accuracy exp_ref demo_data 0.5 demo_world
              (returned (epoch exp_ref demo_data 0.5 demo_world) 0)
              (world_after (epoch exp_ref demo_data 0.5 demo_world) demo_world))
    as (Hout & _ & k & Hk & _ & Ha).
  - vm_compute. reflexivity.
  - split.
    + rewrite Hout. vm_compute. reflexivity.
    + exists k. split; [exact Hk | exact Ha].
Defined.

Lemma training_ends_after_first_epoch_witness :
  returned (epoch exp_ref demo_data_mislabelled 0.5 demo_world) 1 = 0 /\
  SGD_loop exp_ref 3 demo_data_mislabelled 0.5 0 demo_world
  = Returns tt (world_after (epoch exp_ref demo_data_mislabelled 0.5 demo_world) demo_world).
Proof.
  split; [vm_compute; reflexivity|].
  apply (training_ends_after_first_epoch exp_ref 2 demo_data_mislabelled 0.5 demo_world
           (returned (epoch exp_ref demo_data_mislabelled 0.5 demo_world) 1)).
  - vm_compute. reflexivity.
  - right. vm_compute. reflexivity.
Defined.

Lemma exception_in_accumulation_changes_nothing_witness :
  SGD exp_ref 1
    ([(column [1; 0], column [1; 0])] ++ (column [1; 2; 3], column [1; 0]) :: []) 0.5 demo_world
  = Raises ValueError demo_world.
Proof.
  apply (exception_in_accumulation_changes_nothing exp_ref 0
           [(column [1; 0], column [1; 0])] [] (column [1; 2; 3]) (column [1; 0])
           0.5 demo_world ValueError).
  - exact demo_net_well_shaped.
  - vm_compute. lia.
  - repeat constructor.
  - vm_compute. reflexivity.
Defined.
